(** * Complaint tracking service: a shallow embedding of [src/index.js]

    The service keeps one MongoDB collection of complaints behind four
    Express routes.  The collection is modelled as the list of its documents
    in insertion order, every route handler as a function from the collection
    (and the request) to the new collection and the reply.  The clock
    ([Date.now], [new Date()]) and the identifier the driver generates for a
    new document are inputs of the handlers.

    Request fields are typed as the HTTP interface documents them: strings
    that may be absent.  A string is a sequence of code units below 256. *)

From Stdlib Require Import List String Ascii ZArith NArith Bool Lia.
From Stdlib Require Import Permutation Sorted.
Import ListNotations.
Open Scope string_scope.
Open Scope list_scope.

(** ** JavaScript values *)

Module JS.

(** Truthiness of a possibly absent string: [undefined] and [''] are falsy. *)
Definition truthy (v : option string) : bool :=
  match v with
  | Some (String _ _) => true
  | _ => false
  end.

(** The string behind a value already known to be present. *)
Definition str (v : option string) : string :=
  match v with
  | Some s => s
  | None => ""
  end.

(** [a || b] on strings. *)
Definition or (v : option string) (dflt : string) : string :=
  if truthy v then str v else dflt.

(** White space and line terminators below code unit 256:
    TAB, LF, VT, FF, CR, SP and NBSP. *)
Definition isWhiteSpace (a : ascii) : bool :=
  let n := nat_of_ascii a in
  ((9 <=? n) && (n <=? 13) || (n =? 32) || (n =? 160))%nat.

Fixpoint trimStart (s : string) : string :=
  match s with
  | EmptyString => EmptyString
  | String a s' => if isWhiteSpace a then trimStart s' else s
  end.

Fixpoint trimEnd (s : string) : string :=
  match s with
  | EmptyString => EmptyString
  | String a s' =>
      match trimEnd s' with
      | EmptyString => if isWhiteSpace a then EmptyString else String a EmptyString
      | t => String a t
      end
  end.

(** [String.prototype.trim]. *)
Definition trim (s : string) : string := trimEnd (trimStart s).

End JS.

(** ** Documents *)

Definition ObjectId := N.

Module StatusHistory.
(** [StatusHistorySchema]: a status and the time it was entered. *)
Record t := mk { status : string; time : Z }.
End StatusHistory.

(** A [Complaint] document.  The three required paths may be undefined in a
    document that has not been validated yet. *)
Record Complaint := {
  _id : ObjectId;
  trackId : option string;
  description : option string;
  category : option string;
  status : string;
  createdAt : Z;
  evidence : option string;
  comments : list string;
  statusHistory : list StatusHistory.t
}.

(** The collection, in insertion order. *)
Definition Collection := list Complaint.

(** The body of [POST /api/complaints]: it is handed whole to the model's
    constructor, so every schema path can be supplied. *)
Record CreateBody := {
  body_trackId : option string;
  body_description : option string;
  body_category : option string;
  body_status : option string;
  body_createdAt : option Z;
  body_evidence : option string;
  body_comments : option (list string);
  body_statusHistory : option (list StatusHistory.t)
}.

(** The documented body: [{description, category, trackId, evidence?}]. *)
Definition createBody (description category trackId : string)
  (evidence : option string) : CreateBody :=
  {| body_trackId := Some trackId;
     body_description := Some description;
     body_category := Some category;
     body_status := None;
     body_createdAt := None;
     body_evidence := evidence;
     body_comments := None;
     body_statusHistory := None |}.

(** ** The persistence layer (Mongoose over MongoDB) *)

Inductive MongooseError :=
| ValidationError (paths : list string)
| CastError (path : string)
| DuplicateKey (index : string).

(** Calls that may throw. *)
Definition Exc (A : Type) : Type := MongooseError + A.

Definition ret {A} (a : A) : Exc A := inr a.
Definition throw {A} (e : MongooseError) : Exc A := inl e.
Definition bind {A B} (m : Exc A) (k : A -> Exc B) : Exc B :=
  match m with
  | inl e => inl e
  | inr a => k a
  end.

Notation "x <- m ;; k" := (bind m (fun x => k))
  (at level 61, m at next level, right associativity).

(** The [enum] of the [status] path. *)
Definition statusEnum : list string :=
  ["Pending"; "In Review"; "Resolved"; "Escalated"; "Unnecessary"].

Definition inEnum (s : string) : bool := existsb (String.eqb s) statusEnum.

(** [required: true] on a string path: present and not empty. *)
Definition required (v : option string) : bool := JS.truthy v.

Definition check (ok : bool) (path : string) : list string :=
  if ok then [] else [path].

(** The paths of a document that fail validation. *)
Definition invalidPaths (c : Complaint) : list string :=
  check (required (trackId c)) "trackId" ++
  check (required (description c)) "description" ++
  check (required (category c)) "category" ++
  check (inEnum (status c)) "status" ++
  check (forallb (fun e => required (Some (StatusHistory.status e)))
           (statusHistory c)) "statusHistory".

Definition isValid (c : Complaint) : bool :=
  match invalidPaths c with
  | [] => true
  | _ => false
  end.

Definition validate (c : Complaint) : Exc unit :=
  match invalidPaths c with
  | [] => ret tt
  | paths => throw (ValidationError paths)
  end.

(** The time values a [Date] can hold, in milliseconds: the cast of any
    other number to a [Date] path fails. *)
Definition isDate (t : Z) : bool := (Z.abs t <=? 8640000000000000)%Z.

(** The paths of a body whose cast fails when the document is built.  The
    constructor does not throw: it records the error on the document, and the
    document's validation, at [save], reports it.  What such a document holds
    at the failed path is of no consequence, as it is neither stored nor sent
    back. *)
Definition castErrors (b : CreateBody) : list string :=
  check (match body_createdAt b with Some t => isDate t | None => true end)
    "createdAt" ++
  check (match body_statusHistory b with
         | Some h => forallb (fun e => isDate (StatusHistory.time e)) h
         | None => true
         end) "statusHistory".

(** [new Complaint(req.body)]: the body's paths, and the schema's defaults
    for the paths it leaves out. *)
Definition newComplaint (oid : ObjectId) (now : Z) (b : CreateBody) : Complaint :=
  {| _id := oid;
     trackId := body_trackId b;
     description := body_description b;
     category := body_category b;
     status := match body_status b with Some s => s | None => "Pending" end;
     createdAt := match body_createdAt b with Some t => t | None => now end;
     evidence := body_evidence b;
     comments := match body_comments b with Some l => l | None => [] end;
     statusHistory := match body_statusHistory b with Some l => l | None => [] end |}.

Definition sameTrackId (t : option string) (d : Complaint) : bool :=
  match t, trackId d with
  | Some a, Some b => String.eqb a b
  | _, _ => false
  end.

(** Insertion checks the unique indexes: the primary key and [trackId]. *)
Definition insertOne (db : Collection) (c : Complaint) : Exc Collection :=
  if existsb (fun d => N.eqb (_id d) (_id c)) db then throw (DuplicateKey "_id_")
  else if existsb (sameTrackId (trackId c)) db then throw (DuplicateKey "trackId_1")
  else ret (db ++ [c]).

(** Writing back a document that was read from the collection. *)
Fixpoint updateOne (c : Complaint) (db : Collection) : Collection :=
  match db with
  | [] => []
  | d :: db' => if N.eqb (_id d) (_id c) then c :: db' else d :: updateOne c db'
  end.

(** [doc.save()] of a new document; [castErrs] are the cast errors recorded
    when it was built, which validation reports with its own. *)
Definition saveNew (db : Collection) (c : Complaint) (castErrs : list string)
  : Exc (Collection * Complaint) :=
  _ <- match castErrs with
       | [] => validate c
       | _ => throw (ValidationError (castErrs ++ invalidPaths c))
       end ;;
  db' <- insertOne db c ;;
  ret (db', c).

(** [doc.save()] of a document read from the collection. *)
Definition save (db : Collection) (c : Complaint) : Exc (Collection * Complaint) :=
  _ <- validate c ;;
  ret (updateOne c db, c).

Definition hexDigit (a : ascii) : option N :=
  let n := N_of_ascii a in
  (if (48 <=? n) && (n <=? 57) then Some (n - 48)
   else if (97 <=? n) && (n <=? 102) then Some (n - 87)
   else if (65 <=? n) && (n <=? 70) then Some (n - 55)
   else None)%N.

Fixpoint parseHex (acc : N) (s : string) : option N :=
  match s with
  | EmptyString => Some acc
  | String a s' =>
      match hexDigit a with
      | Some d => parseHex (16 * acc + d)%N s'
      | None => None
      end
  end.

(** The cast of a path parameter to an object id: 24 hexadecimal digits
    (the driver's older 12-character form is left out). *)
Definition castObjectId (s : string) : option ObjectId :=
  if (String.length s =? 24)%nat then parseHex 0%N s else None.

(** [Complaint.findById(id)]: throws when the id cannot be cast. *)
Definition findById (db : Collection) (id : string) : Exc (option Complaint) :=
  match castObjectId id with
  | None => throw (CastError "_id")
  | Some oid => ret (find (fun d => N.eqb (_id d) oid) db)
  end.

(** Modelled from the spec: the ordering of [find().sort({createdAt: -1})] is
    computed by the database, outside [src/index.js]; the specification asks
    for a descending order on [createdAt] that is stable with respect to the
    collection's insertion order.  Insertion sort, an element never passing
    one with the same [createdAt]. *)
Fixpoint insertDesc (c : Complaint) (l : list Complaint) : list Complaint :=
  match l with
  | [] => [c]
  | d :: l' =>
      if (createdAt c <? createdAt d)%Z then d :: insertDesc c l' else c :: l
  end.

Definition sortByCreatedAtDesc (db : Collection) : list Complaint :=
  fold_right insertDesc [] db.

(** ** Replies *)

(** [jwt.sign(payload, secret, {expiresIn})], kept symbolic. *)
Record Token := {
  payload_email : string;
  payload_role : string;
  secret : string;
  expiresIn : string
}.

Inductive ErrorText :=
| Message (text : string)
| ErrMessage (err : MongooseError).

Inductive Reply :=
| ComplaintJson (code : nat) (data : Complaint)
| ListJson (code : nat) (data : list Complaint)
| LoginJson (code : nat) (token : Token) (email : string)
| ErrorJson (code : nat) (error : ErrorText).

Definition statusCode (r : Reply) : nat :=
  match r with
  | ComplaintJson code _ => code
  | ListJson code _ => code
  | LoginJson code _ _ => code
  | ErrorJson code _ => code
  end.

(** ** Route handlers *)

Definition pushHistory (c : Complaint) (e : StatusHistory.t) : Complaint :=
  {| _id := _id c; trackId := trackId c; description := description c;
     category := category c; status := status c; createdAt := createdAt c;
     evidence := evidence c; comments := comments c;
     statusHistory := statusHistory c ++ [e] |}.

Definition pushComment (c : Complaint) (comment : string) : Complaint :=
  {| _id := _id c; trackId := trackId c; description := description c;
     category := category c; status := status c; createdAt := createdAt c;
     evidence := evidence c; comments := comments c ++ [comment];
     statusHistory := statusHistory c |}.

Definition setStatus (c : Complaint) (s : string) : Complaint :=
  {| _id := _id c; trackId := trackId c; description := description c;
     category := category c; status := s; createdAt := createdAt c;
     evidence := evidence c; comments := comments c;
     statusHistory := statusHistory c |}.

(** [POST /api/complaints] *)
Definition postComplaints (db : Collection) (oid : ObjectId) (now : Z)
  (body : CreateBody) : Collection * Reply :=
  let newComplaint := newComplaint oid now body in
  let newComplaint :=
    pushHistory newComplaint
      (StatusHistory.mk (status newComplaint) (createdAt newComplaint)) in
  match saveNew db newComplaint (castErrors body) with
  | inr (db', saved) => (db', ComplaintJson 201 saved)
  | inl err => (db, ErrorJson 400 (ErrMessage err))
  end.

(** [GET /api/complaints].  The collection of the model cannot fail to
    answer, so the handler's 500 branch has no counterpart. *)
Definition getComplaints (db : Collection) : Collection * Reply :=
  (db, ListJson 200 (sortByCreatedAtDesc db)).

(** [PATCH /api/complaints/:id/status] *)
Definition patchStatus (db : Collection) (now : Z) (id : string)
  (status' comment : option string) : Collection * Reply :=
  match findById db id with
  | inl err => (db, ErrorJson 400 (ErrMessage err))
  | inr None => (db, ErrorJson 404 (Message "Complaint not found"))
  | inr (Some complaint) =>
      let complaint :=
        if JS.truthy comment then pushComment complaint (JS.str comment)
        else complaint in
      let complaint :=
        if JS.truthy status' && negb (String.eqb (status complaint) (JS.str status'))
        then pushHistory (setStatus complaint (JS.str status'))
               (StatusHistory.mk (JS.str status') now)
        else complaint in
      match save db complaint with
      | inr (db', updatedComplaint) => (db', ComplaintJson 200 updatedComplaint)
      | inl err => (db, ErrorJson 400 (ErrMessage err))
      end
  end.

(** [process.env], as far as the login route reads it. *)
Record Env := {
  ADMIN_EMAIL : option string;
  ADMIN_PASSWORD : option string;
  JWT_SECRET : option string
}.

(** [POST /api/admin/login].  On string fields nothing in the body of the
    handler throws, so its 500 branch has no counterpart. *)
Definition adminLogin (env : Env) (email password : option string) : Reply :=
  if negb (JS.truthy email) || negb (JS.truthy password) then
    ErrorJson 400 (Message "Email and password are required")
  else
    let cleanEmail := JS.trim (JS.str email) in
    let cleanPassword := JS.trim (JS.str password) in
    let ADMIN_EMAIL := JS.or (ADMIN_EMAIL env) "prasad@gmail.com" in
    let ADMIN_PASSWORD := JS.or (ADMIN_PASSWORD env) "prasad123" in
    if String.eqb cleanEmail ADMIN_EMAIL && String.eqb cleanPassword ADMIN_PASSWORD then
      let token :=
        {| payload_email := JS.str email;
           payload_role := "admin";
           secret := JS.or (JWT_SECRET env) "prasad123";
           expiresIn := "24h" |} in
      LoginJson 200 token cleanEmail
    else ErrorJson 401 (Message "Invalid credentials").

(** ** The service as a transition system *)

Inductive Request :=
| Create (oid : ObjectId) (now : Z) (body : CreateBody)
| List
| UpdateStatus (now : Z) (id : string) (status' comment : option string)
| Login (email password : option string).

Definition handle (env : Env) (db : Collection) (rq : Request) : Collection * Reply :=
  match rq with
  | Create oid now body => postComplaints db oid now body
  | List => getComplaints db
  | UpdateStatus now id status' comment => patchStatus db now id status' comment
  | Login email password => (db, adminLogin env email password)
  end.

(** The collections the service can get to from the empty one. *)
Inductive reachable (env : Env) : Collection -> Prop :=
| reach_empty : reachable env []
| reach_step db rq : reachable env db -> reachable env (fst (handle env db rq)).

(** Every stored document passes the schema's validation. *)
Definition validStore (db : Collection) : Prop := Forall (fun c => isValid c = true) db.

(** The stored complaint an id parameter names, if any. *)
Definition lookup (db : Collection) (id : string) : option Complaint :=
  match findById db id with
  | inr (Some c) => Some c
  | _ => None
  end.

Definition defaultEnv : Env :=
  {| ADMIN_EMAIL := None; ADMIN_PASSWORD := None; JWT_SECRET := None |}.

(** ** Serialisation *)

(** A plain JavaScript object: its own properties in insertion order.  A
    property may hold [undefined], written [None]. *)
Definition JsObject (V : Type) : Type := list (string * option V).

(** [o[k]]: [undefined] when [o] has no such property. *)
Fixpoint getProp {V : Type} (o : JsObject V) (k : string) : option V :=
  match o with
  | [] => None
  | (k', v) :: o' => if String.eqb k' k then v else getProp o' k
  end.

(** [k in o] *)
Definition hasProp {V : Type} (o : JsObject V) (k : string) : bool :=
  existsb (fun p => String.eqb (fst p) k) o.

(** [o[k] = v]: in place when the property exists, else added at the end. *)
Fixpoint setProp {V : Type} (o : JsObject V) (k : string) (v : option V) : JsObject V :=
  match o with
  | [] => [(k, v)]
  | (k', v') :: o' =>
      if String.eqb k' k then (k, v) :: o' else (k', v') :: setProp o' k v
  end.

(** [delete o[k]] *)
Definition deleteProp {V : Type} (o : JsObject V) (k : string) : JsObject V :=
  filter (fun p => negb (String.eqb (fst p) k)) o.

(** The [transform] of the schema's [toJSON] and [toObject] options; it
    works on [ret] and does not read [doc]. *)
Definition transform {D V : Type} (doc : D) (ret : JsObject V) : JsObject V :=
  let ret := setProp ret "id" (getProp ret "_id") in
  let ret := deleteProp ret "_id" in
  deleteProp ret "__v".

(** ** Vocabulary of the properties *)

(** A required request field that is absent or the empty string. *)
Definition missingOrEmpty (v : option string) : Prop := v = None \/ v = Some "".

(** Most recent first. *)
Definition newerOrSame (a b : Complaint) : Prop := (createdAt b <= createdAt a)%Z.

Definition createdAtIs (t : Z) (c : Complaint) : bool := (createdAt c =? t)%Z.

(** The document [PATCH] holds in memory when it calls [save]. *)
Definition applyPatch (c : Complaint) (now : Z) (status' comment : option string)
  : Complaint :=
  let c1 := if JS.truthy comment then pushComment c (JS.str comment) else c in
  if JS.truthy status' && negb (String.eqb (status c1) (JS.str status'))
  then pushHistory (setStatus c1 (JS.str status')) (StatusHistory.mk (JS.str status') now)
  else c1.

(** The call carries a status, it is not the current one, and the handler
    therefore assigns it. *)
Definition assignsStatus (c : Complaint) (status' : option string) : bool :=
  JS.truthy status' && negb (String.eqb (status c) (JS.str status')).

(** The call supplies one of the five status values, and not the one the
    complaint has. *)
Definition suppliesNewStatus (c : Complaint) (st : option string) : Prop :=
  exists s, st = Some s /\ In s statusEnum /\ s <> status c.



(** One UpdateStatus call on a fixed complaint. *)
Record PatchCall := { call_time : Z; call_status : option string; call_comment : option string }.

Definition patchCall (db : Collection) (id : string) (k : PatchCall) : Collection :=
  fst (patchStatus db (call_time k) id (call_status k) (call_comment k)).

Fixpoint runPatches (db : Collection) (id : string) (calls : list PatchCall) : Collection :=
  match calls with
  | [] => db
  | k :: calls' => runPatches (patchCall db id k) id calls'
  end.


(** The status a request makes its handler assign to a document, if any:
    Create assigns the body's, UpdateStatus a non-empty one that is not the
    complaint's. *)
Definition attemptedStatus (db : Collection) (rq : Request) : option string :=
  match rq with
  | Create _ _ body => body_status body
  | UpdateStatus _ id st _ =>
      match lookup db id with
      | Some c => if assignsStatus c st then Some (JS.str st) else None
      | None => None
      end
  | _ => None
  end.

Definition isUpdateStatus (rq : Request) : bool :=
  match rq with
  | UpdateStatus _ _ _ _ => true
  | _ => false
  end.

(** The credentials in force: the environment's, else the built-in ones. *)
Definition configuredEmail (env : Env) : string :=
  JS.or (ADMIN_EMAIL env) "prasad@gmail.com".

Definition configuredPassword (env : Env) : string :=
  JS.or (ADMIN_PASSWORD env) "prasad123".

(** [c'] is [c] with, at most, a new status and more comments and history
    entries at the end. *)
Definition extends (c c' : Complaint) : Prop :=
  _id c' = _id c /\ trackId c' = trackId c /\ description c' = description c
  /\ category c' = category c /\ createdAt c' = createdAt c
  /\ evidence c' = evidence c
  /\ (exists cs, comments c' = comments c ++ cs)
  /\ (exists hs, statusHistory c' = statusHistory c ++ hs).

(** The status of the last history entry. *)
Definition lastStatus (c : Complaint) : option string :=
  match rev (statusHistory c) with
  | e :: _ => Some (StatusHistory.status e)
  | [] => None
  end.

(** A sequence of requests, served one after the other. *)
Definition run (env : Env) (db : Collection) (rqs : list Request) : Collection :=
  fold_left (fun d rq => fst (handle env d rq)) rqs db.

Definition commentsAt (db : Collection) (id : string) : list string :=
  match lookup db id with
  | Some c => comments c
  | None => []
  end.

(** The comments of the calls of a sequence that were answered 200, in call
    order. *)
Fixpoint acceptedComments (db : Collection) (id : string) (calls : list PatchCall)
  : list string :=
  match calls with
  | [] => []
  | k :: calls' =>
      (if Nat.eqb (statusCode (snd (patchStatus db (call_time k) id (call_status k)
                                      (call_comment k)))) 200
          && JS.truthy (call_comment k)
       then [JS.str (call_comment k)] else [])
      ++ acceptedComments (patchCall db id k) id calls'
  end.

(** A string of white space only. *)
Definition blank (s : string) : Prop := JS.trimStart s = "".

(** ** Scenario data used to exercise the theorems *)

(** The complaint of the specification's scenarios. *)
Definition leak : CreateBody := createBody "leak" "water" "T1" None.

(** The id parameter of the first complaint, and one that names none. *)
Definition id1 : string := "000000000000000000000001".
Definition id2 : string := "000000000000000000000002".

(** A body that asks for a status outside the enum. *)
Definition noise : CreateBody :=
  {| body_trackId := Some "T2"; body_description := Some "noise";
     body_category := Some "street"; body_status := Some "Closed";
     body_createdAt := None; body_evidence := None;
     body_comments := None; body_statusHistory := None |}.

(** The collection after the complaint [leak] was filed at time 100. *)
Definition db1 : Collection := fst (postComplaints [] 1%N 100%Z leak).

(** A second complaint, and the collection once it is filed after [leak]. *)
Definition second : CreateBody := createBody "noise" "street" "T2" None.
Definition db2 : Collection := fst (postComplaints db1 2%N 150%Z second).


Definition call (t : Z) (st cm : option string) : PatchCall :=
  {| call_time := t; call_status := st; call_comment := cm |}.

(** * Properties *)

(** ** Validation and the collection *)

Lemma truthy_Some (s : string) : s <> "" -> JS.truthy (Some s) = true.
Proof. destruct s; [congruence | reflexivity]. Qed.

Lemma truthy_str (v : option string) : JS.truthy v = true -> v = Some (JS.str v).
Proof. destruct v as [[|a s]|]; simpl; congruence. Qed.

Lemma truthy_false (v : option string) :
  JS.truthy v = false <-> v = None \/ v = Some "".
Proof.
  destruct v as [[|a s]|]; simpl; split; intros H; auto; try discriminate.
  destruct H; discriminate.
Qed.

Lemma isValid_spec (c : Complaint) :
  isValid c =
  required (trackId c) && required (description c) && required (category c)
  && inEnum (status c)
  && forallb (fun e => required (Some (StatusHistory.status e))) (statusHistory c).
Proof.
  unfold isValid, invalidPaths, check.
  destruct (required (trackId c)), (required (description c)),
    (required (category c)), (inEnum (status c)),
    (forallb _ (statusHistory c)); reflexivity.
Qed.

Lemma validate_ok (c : Complaint) : isValid c = true -> validate c = ret tt.
Proof.
  unfold isValid, validate. destruct (invalidPaths c); [reflexivity | discriminate].
Qed.

Lemma validate_fail (c : Complaint) :
  isValid c = false -> exists paths, validate c = throw (ValidationError paths).
Proof.
  unfold isValid, validate. destruct (invalidPaths c) as [|p ps]; [discriminate |].
  intros _. now exists (p :: ps).
Qed.

Lemma validate_inv (c : Complaint) (u : unit) : validate c = inr u -> isValid c = true.
Proof.
  unfold isValid, validate. destruct (invalidPaths c); [reflexivity | discriminate].
Qed.

Lemma inEnum_In (s : string) : inEnum s = true <-> In s statusEnum.
Proof.
  unfold inEnum. rewrite existsb_exists. split.
  - intros [x [Hin Heq]]. apply String.eqb_eq in Heq. now subst.
  - intros Hin. exists s. split; [assumption | apply String.eqb_refl].
Qed.

Lemma existsb_none {A} (f : A -> bool) (l : list A) :
  (forall x, In x l -> f x = false) -> existsb f l = false.
Proof.
  intros H. destruct (existsb f l) eqn:E; [| reflexivity].
  apply existsb_exists in E. destruct E as [x [Hin Hf]].
  rewrite (H x Hin) in Hf. discriminate.
Qed.

Lemma filter_none {A} (f : A -> bool) (l : list A) :
  existsb f l = false -> filter f l = [].
Proof.
  induction l as [|x l IH]; simpl; [reflexivity |].
  destruct (f x); simpl; [discriminate | exact IH].
Qed.

(** What a successful [saveNew] says about the document and the collection. *)
Lemma saveNew_inv (db db' : Collection) (c saved : Complaint) (castErrs : list string) :
  saveNew db c castErrs = inr (db', saved) ->
  saved = c /\ db' = db ++ [c] /\ isValid c = true
  /\ existsb (fun d => N.eqb (_id d) (_id c)) db = false
  /\ existsb (sameTrackId (trackId c)) db = false
  /\ castErrs = [].
Proof.
  unfold saveNew, bind, insertOne, ret, throw.
  destruct castErrs as [|p ps]; [| discriminate].
  destruct (validate c) as [e|u] eqn:V; [discriminate |].
  apply validate_inv in V.
  destruct (existsb (fun d => N.eqb (_id d) (_id c)) db); [discriminate |].
  destruct (existsb (sameTrackId (trackId c)) db); [discriminate |].
  intros H. inversion H. subst. repeat split; auto.
Qed.

Lemma save_inv (db db' : Collection) (c saved : Complaint) :
  save db c = inr (db', saved) ->
  saved = c /\ db' = updateOne c db /\ isValid c = true.
Proof.
  unfold save, bind, ret. destruct (validate c) as [e|u] eqn:V; [discriminate |].
  apply validate_inv in V. intros H. inversion H. subst. repeat split; auto.
Qed.

Lemma find_updateOne (db : Collection) (c c' : Complaint) (oid : ObjectId) :
  find (fun d => N.eqb (_id d) oid) db = Some c ->
  _id c' = oid ->
  find (fun d => N.eqb (_id d) oid) (updateOne c' db) = Some c'.
Proof.
  intros Hfind Hid. induction db as [|d db IH]; simpl in *; [discriminate |].
  rewrite Hid. destruct (N.eqb (_id d) oid) eqn:E; simpl.
  - rewrite Hid, N.eqb_refl. reflexivity.
  - rewrite E. now apply IH.
Qed.

Lemma validStore_updateOne (db : Collection) (c : Complaint) :
  validStore db -> isValid c = true -> validStore (updateOne c db).
Proof.
  unfold validStore. intros Hdb Hc.
  induction Hdb as [|d db Hd Hdb IH]; simpl; [constructor |].
  destruct (N.eqb (_id d) (_id c)); constructor; assumption.
Qed.

Lemma lookup_inv (db : Collection) (id : string) (c : Complaint) :
  lookup db id = Some c ->
  exists oid, castObjectId id = Some oid
    /\ find (fun d => N.eqb (_id d) oid) db = Some c
    /\ _id c = oid /\ In c db.
Proof.
  unfold lookup, findById, ret, throw.
  destruct (castObjectId id) as [oid|]; [| discriminate].
  destruct (find _ db) as [d|] eqn:F; [| discriminate].
  intros H. inversion H. subst d. exists oid.
  destruct (find_some _ _ F) as [Hin Heq]. apply N.eqb_eq in Heq. auto.
Qed.

Lemma lookup_findById (db : Collection) (id : string) (c : Complaint) :
  lookup db id = Some c -> findById db id = inr (Some c).
Proof.
  unfold lookup. destruct (findById db id) as [e|[d|]]; congruence.
Qed.

Lemma validStore_In (db : Collection) (c : Complaint) :
  validStore db -> In c db -> isValid c = true.
Proof. unfold validStore. rewrite Forall_forall. auto. Qed.

Lemma sameTrackId_true (t : option string) (d : Complaint) :
  sameTrackId t d = true <-> exists s, t = Some s /\ trackId d = Some s.
Proof.
  unfold sameTrackId. destruct t as [a|], (trackId d) as [b|]; split;
    try discriminate; try (intros [s [H1 H2]]; discriminate).
  - intros H. apply String.eqb_eq in H. subst. now exists b.
  - intros [s [H1 H2]]. inversion H1. inversion H2. subst. apply String.eqb_refl.
Qed.

Lemma insertOne_ok (db : Collection) (c : Complaint) :
  (forall d, In d db -> _id d <> _id c) ->
  (forall d, In d db -> trackId d <> trackId c) ->
  insertOne db c = ret (db ++ [c]).
Proof.
  intros Hid Htrack. unfold insertOne.
  rewrite existsb_none.
  - rewrite existsb_none; [reflexivity |].
    intros d Hin. destruct (sameTrackId (trackId c) d) eqn:E; [| reflexivity].
    apply sameTrackId_true in E. destruct E as [s [H1 H2]].
    exfalso. apply (Htrack d Hin). congruence.
  - intros d Hin. apply N.eqb_neq. auto.
Qed.

(** ** Creation *)

(** C2: a Create call with a non-empty description, category and trackId, a
    trackId no stored complaint carries and an optional evidence succeeds with
    201; the complaint it returns is the one added to the collection, in the
    same write, and has status Pending, createdAt equal to the time of the
    call, no comments, and a status history of exactly one entry, Pending at
    createdAt. *)
Theorem create_pending (db : Collection) (oid : ObjectId) (now : Z)
  (descr categ track : string) (evid : option string) :
  descr <> "" -> categ <> "" -> track <> "" ->
  (forall d, In d db -> trackId d <> Some track) ->
  (forall d, In d db -> _id d <> oid) ->
  exists c,
    postComplaints db oid now (createBody descr categ track evid)
      = (db ++ [c], ComplaintJson 201 c)
    /\ _id c = oid /\ trackId c = Some track /\ description c = Some descr
    /\ category c = Some categ /\ evidence c = evid
    /\ status c = "Pending" /\ createdAt c = now /\ comments c = []
    /\ statusHistory c = [StatusHistory.mk "Pending" (createdAt c)].
Proof.
  intros Hd Hc Ht Huniq Hfresh.
  set (fresh := newComplaint oid now (createBody descr categ track evid)).
  exists (pushHistory fresh (StatusHistory.mk (status fresh) (createdAt fresh))).
  split; [| repeat split; reflexivity].
  unfold postComplaints, saveNew, bind. fold fresh.
  rewrite validate_ok.
  - rewrite insertOne_ok; [reflexivity | exact Hfresh | exact Huniq].
  - rewrite isValid_spec. unfold fresh.
    destruct descr, categ, track; try congruence; reflexivity.
Qed.

Lemma create_pending_witness :
  exists c,
    postComplaints [] 1%N 100%Z leak = ([c], ComplaintJson 201 c)
    /\ status c = "Pending" /\ createdAt c = 100%Z /\ comments c = []
    /\ statusHistory c = [StatusHistory.mk "Pending" 100%Z].
Proof.
  destruct (create_pending [] 1%N 100%Z "leak" "water" "T1" None)
    as [c [H1 [_ [_ [_ [_ [_ [H2 [H3 [H4 H5]]]]]]]]]];
    try discriminate; try (intros d []).
  exists c. rewrite H3 in H5. repeat split; assumption.
Defined.

(** C3: Create fails with 400, and leaves the collection as it was, whenever
    description, category or trackId is missing or empty, or a stored
    complaint already carries the trackId.  After a successful Create, the
    complaints carrying its trackId are exactly the one it added, so a second
    Create with that trackId is refused and the first is all the collection
    retains. *)
Theorem create_rejects (db : Collection) (oid : ObjectId) (now : Z) (body : CreateBody) :
  missingOrEmpty (body_description body)
  \/ missingOrEmpty (body_category body)
  \/ missingOrEmpty (body_trackId body)
  \/ (exists d t, In d db /\ body_trackId body = Some t /\ trackId d = Some t) ->
  (exists err, postComplaints db oid now body = (db, ErrorJson 400 err))
  /\ (forall db0 oid1 now1 body1 first,
        postComplaints db0 oid1 now1 body1 = (db, ComplaintJson 201 first) ->
        body_trackId body1 = body_trackId body ->
        filter (sameTrackId (body_trackId body)) db = [first]).
Proof.
  intros Hbad.
  assert (Hbad' : JS.truthy (body_description body) = false
                  \/ JS.truthy (body_category body) = false
                  \/ JS.truthy (body_trackId body) = false
                  \/ (exists d, In d db /\ sameTrackId (body_trackId body) d = true)).
  { unfold missingOrEmpty in Hbad. rewrite <- !truthy_false in Hbad.
    destruct Hbad as [H|[H|[H|[d [t [Hin [Hb Hd]]]]]]]; auto.
    do 3 right. exists d. split; [assumption |].
    apply sameTrackId_true. now exists t. }
  clear Hbad. rename Hbad' into Hbad. split.
  - unfold postComplaints, saveNew, bind.
    set (c := pushHistory _ _).
    destruct (castErrors body) as [|p ps]; [| eexists; reflexivity].
    destruct (isValid c) eqn:V.
    + rewrite (validate_ok _ V).
      rewrite isValid_spec in V. unfold required in V. simpl in V.
      repeat (apply andb_prop in V; destruct V as [V ?]).
      destruct Hbad as [H'|[H'|[H'|H']]]; try congruence.
      unfold insertOne.
      destruct (existsb (fun d => N.eqb (_id d) (_id c)) db).
      * eexists. reflexivity.
      * replace (existsb (sameTrackId (trackId c)) db) with true.
        -- eexists. reflexivity.
        -- symmetry. apply existsb_exists. exact H'.
    + destruct (validate_fail _ V) as [paths ->]. eexists. reflexivity.
  - intros db0 oid1 now1 body1 first Hpost Hsame.
    unfold postComplaints in Hpost.
    destruct (saveNew db0 _ _) as [e|[db' saved]] eqn:S; [inversion Hpost |].
    inversion Hpost. subst db' saved. clear Hpost.
    apply saveNew_inv in S. destruct S as [Hc [Hdb [V [_ [Hnone _]]]]].
    rewrite isValid_spec in V. unfold required in V.
    repeat (apply andb_prop in V; destruct V as [V ?]).
    simpl in Hnone, V. rewrite Hsame in Hnone, V.
    rewrite Hdb, filter_app, (filter_none _ _ Hnone), <- Hc. simpl.
    replace (sameTrackId (body_trackId body) first) with true; [reflexivity |].
    symmetry. apply sameTrackId_true. exists (JS.str (body_trackId body)).
    rewrite Hc. simpl. rewrite Hsame. split; now apply truthy_str.
Qed.

Lemma create_rejects_witness :
  (exists err, postComplaints db1 2%N 200%Z leak = (db1, ErrorJson 400 err))
  /\ List.length (filter (sameTrackId (Some "T1")) db1) = 1%nat.
Proof.
  assert (Hdup : exists d t, In d db1 /\ body_trackId leak = Some t /\ trackId d = Some t).
  { eexists. exists "T1". split; [left; reflexivity | split; reflexivity]. }
  destruct (create_rejects db1 2%N 200%Z leak (or_intror (or_intror (or_intror Hdup))))
    as [Hrej Hone].
  split; [exact Hrej |].
  change (Some "T1") with (body_trackId leak).
  now rewrite (Hone [] 1%N 100%Z leak
                 (List.hd (newComplaint 0%N 0%Z leak) db1) eq_refl eq_refl).
Defined.

(** ** Listing *)

Lemma insertDesc_perm (c : Complaint) (l : list Complaint) :
  Permutation (c :: l) (insertDesc c l).
Proof.
  induction l as [|d l IH]; simpl; [apply Permutation_refl |].
  destruct (createdAt c <? createdAt d)%Z.
  - apply perm_trans with (d :: c :: l); [apply perm_swap | now apply perm_skip].
  - apply Permutation_refl.
Qed.

Lemma sort_perm (db : Collection) : Permutation db (sortByCreatedAtDesc db).
Proof.
  induction db as [|c db IH]; simpl; [constructor |].
  apply perm_trans with (c :: sortByCreatedAtDesc db);
    [now apply perm_skip | apply insertDesc_perm].
Qed.

Lemma insertDesc_sorted (c : Complaint) (l : list Complaint) :
  StronglySorted newerOrSame l -> StronglySorted newerOrSame (insertDesc c l).
Proof.
  induction 1 as [|d l Hl IH Hd]; simpl.
  - repeat constructor.
  - destruct (createdAt c <? createdAt d)%Z eqn:E.
    + constructor; [exact IH |].
      apply (Permutation_Forall (insertDesc_perm c l)).
      constructor; [| exact Hd].
      unfold newerOrSame. apply Z.ltb_lt in E. lia.
    + apply Z.ltb_ge in E.
      constructor; [now constructor |].
      constructor; [exact E |].
      eapply Forall_impl; [| exact Hd].
      unfold newerOrSame. intros a Ha. lia.
Qed.

Lemma sort_sorted (db : Collection) : StronglySorted newerOrSame (sortByCreatedAtDesc db).
Proof.
  induction db as [|c db IH]; simpl; [constructor | now apply insertDesc_sorted].
Qed.

Lemma insertDesc_stable (t : Z) (c : Complaint) (l : list Complaint) :
  filter (createdAtIs t) (insertDesc c l) = filter (createdAtIs t) (c :: l).
Proof.
  induction l as [|d l IH]; [reflexivity |].
  cbn [insertDesc]. destruct (createdAt c <? createdAt d)%Z eqn:E; [| reflexivity].
  apply Z.ltb_lt in E. cbn [filter] in *. rewrite IH.
  unfold createdAtIs.
  destruct (createdAt c =? t)%Z eqn:Ec, (createdAt d =? t)%Z eqn:Ed; try reflexivity.
  apply Z.eqb_eq in Ec, Ed. lia.
Qed.

Lemma sort_stable (t : Z) (db : Collection) :
  filter (createdAtIs t) (sortByCreatedAtDesc db) = filter (createdAtIs t) db.
Proof.
  induction db as [|c db IH]; [reflexivity |].
  cbn [sortByCreatedAtDesc fold_right]. rewrite insertDesc_stable.
  cbn [filter]. fold (sortByCreatedAtDesc db). now rewrite IH.
Qed.

(** C4: List answers 200 and leaves the collection alone; its data are all
    the stored complaints, each once, most recent createdAt first, and the
    complaints of any one createdAt appear in their insertion order.  On the
    empty collection the data are the empty sequence. *)
Theorem list_sorted_stable (db : Collection) :
  exists data,
    getComplaints db = (db, ListJson 200 data)
    /\ Permutation db data
    /\ StronglySorted newerOrSame data
    /\ (forall t, filter (createdAtIs t) data = filter (createdAtIs t) db)
    /\ getComplaints [] = ([], ListJson 200 []).
Proof.
  exists (sortByCreatedAtDesc db). split; [reflexivity |].
  split; [apply sort_perm |].
  split; [apply sort_sorted |].
  split; [intros t; apply sort_stable | reflexivity].
Qed.

(** ** Status updates *)

Lemma patchStatus_found (db : Collection) (now : Z) (id : string)
  (status' comment : option string) (c : Complaint) :
  lookup db id = Some c ->
  patchStatus db now id status' comment =
  match save db (applyPatch c now status' comment) with
  | inr (db', updated) => (db', ComplaintJson 200 updated)
  | inl err => (db, ErrorJson 400 (ErrMessage err))
  end.
Proof.
  intros H. unfold patchStatus. rewrite (lookup_findById _ _ _ H). reflexivity.
Qed.

Lemma applyPatch_id c now st cm : _id (applyPatch c now st cm) = _id c.
Proof.
  unfold applyPatch. destruct (JS.truthy cm); simpl;
    destruct (JS.truthy st && _); reflexivity.
Qed.

Lemma applyPatch_status c now st cm :
  status (applyPatch c now st cm) = if assignsStatus c st then JS.str st else status c.
Proof.
  unfold applyPatch, assignsStatus. destruct (JS.truthy cm); simpl;
    destruct (JS.truthy st && _); reflexivity.
Qed.

Lemma applyPatch_history c now st cm :
  statusHistory (applyPatch c now st cm) =
  if assignsStatus c st
  then statusHistory c ++ [StatusHistory.mk (JS.str st) now]
  else statusHistory c.
Proof.
  unfold applyPatch, assignsStatus. destruct (JS.truthy cm); simpl;
    destruct (JS.truthy st && _); reflexivity.
Qed.

Lemma applyPatch_comments c now st cm :
  comments (applyPatch c now st cm) =
  if JS.truthy cm then comments c ++ [JS.str cm] else comments c.
Proof.
  unfold applyPatch. destruct (JS.truthy cm); simpl;
    destruct (JS.truthy st && _); reflexivity.
Qed.

Lemma applyPatch_isValid c now st cm :
  isValid c = true ->
  isValid (applyPatch c now st cm) = if assignsStatus c st then inEnum (JS.str st) else true.
Proof.
  rewrite !isValid_spec, applyPatch_status, applyPatch_history.
  replace (trackId (applyPatch c now st cm)) with (trackId c).
  replace (description (applyPatch c now st cm)) with (description c).
  replace (category (applyPatch c now st cm)) with (category c).
  - unfold assignsStatus. destruct (JS.truthy st) eqn:T; simpl; [| trivial].
    destruct (String.eqb (status c) (JS.str st)); simpl; [trivial |].
    intros V. repeat (apply andb_prop in V; destruct V as [V ?]).
    rewrite forallb_app, H, V, H2, H1. simpl.
    destruct st as [[|a s]|]; try discriminate T. simpl.
    now rewrite andb_true_r.
  - unfold applyPatch. destruct (JS.truthy cm); simpl;
      destruct (JS.truthy st && _); reflexivity.
  - unfold applyPatch. destruct (JS.truthy cm); simpl;
      destruct (JS.truthy st && _); reflexivity.
  - unfold applyPatch. destruct (JS.truthy cm); simpl;
      destruct (JS.truthy st && _); reflexivity.
Qed.

(** A successful update: 200, the patched document written back. *)
Lemma patchStatus_ok (db : Collection) (now : Z) (id : string)
  (st cm : option string) (c : Complaint) :
  validStore db -> lookup db id = Some c ->
  (if assignsStatus c st then inEnum (JS.str st) else true) = true ->
  let c' := applyPatch c now st cm in
  patchStatus db now id st cm = (updateOne c' db, ComplaintJson 200 c')
  /\ lookup (updateOne c' db) id = Some c'
  /\ validStore (updateOne c' db).
Proof.
  intros Hdb Hc Hok c'.
  destruct (lookup_inv _ _ _ Hc) as [oid [Hcast [Hfind [Hid Hin]]]].
  assert (V : isValid c' = true).
  { unfold c'. rewrite applyPatch_isValid; [exact Hok |].
    exact (validStore_In _ _ Hdb Hin). }
  split; [| split].
  - rewrite (patchStatus_found _ _ _ _ _ _ Hc). fold c'.
    unfold save, bind. now rewrite (validate_ok _ V).
  - unfold lookup, findById. rewrite Hcast. unfold ret.
    rewrite (find_updateOne db c c' oid Hfind); [reflexivity |].
    unfold c'. now rewrite applyPatch_id.
  - now apply validStore_updateOne.
Qed.

(** A refused update: 400, nothing written. *)
Lemma patchStatus_refused (db : Collection) (now : Z) (id : string)
  (st cm : option string) (c : Complaint) :
  validStore db -> lookup db id = Some c ->
  (if assignsStatus c st then inEnum (JS.str st) else true) = false ->
  exists paths,
    patchStatus db now id st cm
      = (db, ErrorJson 400 (ErrMessage (ValidationError paths))).
Proof.
  intros Hdb Hc Hbad.
  destruct (lookup_inv _ _ _ Hc) as [oid [Hcast [Hfind [Hid Hin]]]].
  assert (V : isValid (applyPatch c now st cm) = false).
  { rewrite applyPatch_isValid; [exact Hbad |].
    exact (validStore_In _ _ Hdb Hin). }
  destruct (validate_fail _ V) as [paths E]. exists paths.
  rewrite (patchStatus_found _ _ _ _ _ _ Hc).
  unfold save, bind. now rewrite E.
Qed.

Lemma patchStatus_absent (db : Collection) (now : Z) (id : string)
  (st cm : option string) :
  castObjectId id <> None -> lookup db id = None ->
  patchStatus db now id st cm = (db, ErrorJson 404 (Message "Complaint not found")).
Proof.
  unfold lookup, patchStatus, findById, ret, throw.
  destruct (castObjectId id) as [oid|]; [| congruence].
  destruct (find _ db); [discriminate | reflexivity].
Qed.

Lemma assigns_invalid (c : Complaint) (st : option string) :
  isValid c = true -> JS.truthy st = true -> ~ In (JS.str st) statusEnum ->
  assignsStatus c st = true /\ inEnum (JS.str st) = false.
Proof.
  intros V T Hnot. rewrite isValid_spec in V.
  repeat (apply andb_prop in V; destruct V as [V ?]).
  assert (E : inEnum (JS.str st) = false).
  { destruct (inEnum (JS.str st)) eqn:E; [| reflexivity].
    apply inEnum_In in E. contradiction. }
  split; [| exact E].
  unfold assignsStatus. rewrite T. simpl.
  destruct (String.eqb (status c) (JS.str st)) eqn:Q; [| reflexivity].
  apply String.eqb_eq in Q. congruence.
Qed.

(** C9: when the id parameter cannot be cast to an object id, UpdateStatus
    answers 400 with the cast error and writes nothing, whatever the body;
    it does not answer 404. *)
Theorem patch_malformed_id (db : Collection) (now : Z) (id : string)
  (st cm : option string) :
  castObjectId id = None ->
  patchStatus db now id st cm = (db, ErrorJson 400 (ErrMessage (CastError "_id")))
  /\ statusCode (snd (patchStatus db now id st cm)) <> 404%nat.
Proof.
  intros H. unfold patchStatus, findById. rewrite H. simpl.
  split; [reflexivity | discriminate].
Qed.

Lemma patch_malformed_id_witness :
  patchStatus db1 200%Z "not-an-id" (Some "Resolved") None
    = (db1, ErrorJson 400 (ErrMessage (CastError "_id"))).
Proof.
  exact (proj1 (patch_malformed_id db1 200%Z "not-an-id" (Some "Resolved") None eq_refl)).
Defined.

(** C6 as stated does not hold: an id that is no object id names no stored
    complaint, yet the answer is 400, not 404; and an empty status, which is
    none of the five values, is accepted with 200. *)
Lemma patch_not_404_counterexample :
  (lookup db1 "not-an-id" = None
   /\ statusCode (snd (patchStatus db1 200%Z "not-an-id" None None)) = 400%nat)
  /\ (lookup db1 id1 <> None /\ ~ In "" statusEnum
      /\ statusCode (snd (patchStatus db1 200%Z id1 (Some "") None)) = 200%nat).
Proof.
  split; [split; reflexivity |].
  split; [discriminate |].
  split; [| reflexivity].
  simpl. intros H. repeat (destruct H as [H|H]; [discriminate |]). exact H.
Qed.

(** C6, amended: on a collection of valid documents, UpdateStatus answers 404
    when the id is a well-formed object id that no stored complaint has; 400,
    writing nothing, when the complaint exists and the call carries a
    non-empty status that is none of the five values; and otherwise (the
    complaint exists and the status is absent, empty or one of the five) 200
    with the updated complaint, which is then the stored one. *)
Theorem patch_outcomes (db : Collection) (now : Z) (id : string)
  (st cm : option string) :
  validStore db ->
  (castObjectId id <> None -> lookup db id = None ->
   patchStatus db now id st cm = (db, ErrorJson 404 (Message "Complaint not found")))
  /\ (forall c, lookup db id = Some c ->
        JS.truthy st = true -> ~ In (JS.str st) statusEnum ->
        exists err, patchStatus db now id st cm = (db, ErrorJson 400 err))
  /\ (forall c, lookup db id = Some c ->
        JS.truthy st = false \/ In (JS.str st) statusEnum ->
        let c' := applyPatch c now st cm in
        patchStatus db now id st cm = (updateOne c' db, ComplaintJson 200 c')
        /\ lookup (updateOne c' db) id = Some c').
Proof.
  intros Hdb. split; [| split].
  - apply patchStatus_absent.
  - intros c Hc T Hnot.
    destruct (lookup_inv _ _ _ Hc) as [oid [_ [_ [_ Hin]]]].
    destruct (assigns_invalid c st (validStore_In _ _ Hdb Hin) T Hnot) as [A E].
    destruct (patchStatus_refused db now id st cm c Hdb Hc) as [paths P].
    + now rewrite A.
    + eexists. exact P.
  - intros c Hc Hst c'.
    destruct (patchStatus_ok db now id st cm c Hdb Hc) as [P [L _]]; [| now split].
    unfold assignsStatus. destruct Hst as [T|Hin].
    + now rewrite T.
    + apply inEnum_In in Hin. rewrite Hin. now destruct (_ && _).
Qed.

Lemma db1_valid : validStore db1.
Proof. repeat constructor. Qed.

Lemma patch_outcomes_witness :
  patchStatus db1 200%Z id2 (Some "Resolved") None
    = (db1, ErrorJson 404 (Message "Complaint not found"))
  /\ (exists err, patchStatus db1 200%Z id1 (Some "Closed") (Some "checked")
                  = (db1, ErrorJson 400 err))
  /\ statusCode (snd (patchStatus db1 200%Z id1 (Some "Resolved") None)) = 200%nat.
Proof.
  destruct (patch_outcomes db1 200%Z id2 (Some "Resolved") None db1_valid) as [H1 _].
  destruct (patch_outcomes db1 200%Z id1 (Some "Closed") (Some "checked") db1_valid)
    as [_ [H2 _]].
  destruct (patch_outcomes db1 200%Z id1 (Some "Resolved") None db1_valid)
    as [_ [_ H3]].
  split; [apply H1; [discriminate | reflexivity] |].
  split.
  - apply (H2 (List.hd (newComplaint 0%N 0%Z leak) db1)); [reflexivity | reflexivity |].
    simpl. intros H. repeat (destruct H as [H|H]; [discriminate |]). exact H.
  - destruct (H3 (List.hd (newComplaint 0%N 0%Z leak) db1)) as [P _];
      [reflexivity | right; simpl; auto |].
    now rewrite P.
Defined.

(** *** The status history *)

Lemma In_enum_truthy (s : string) : In s statusEnum -> JS.truthy (Some s) = true.
Proof.
  intros H. apply inEnum_In in H. destruct s; [discriminate | reflexivity].
Qed.

Lemma suppliesNewStatus_dec (c : Complaint) (st : option string) :
  (suppliesNewStatus c st /\ assignsStatus c st = true /\ inEnum (JS.str st) = true)
  \/ (~ suppliesNewStatus c st
      /\ (assignsStatus c st = false \/ inEnum (JS.str st) = false)).
Proof.
  destruct (assignsStatus c st) eqn:A.
  - destruct (inEnum (JS.str st)) eqn:E.
    + left. split; [| auto].
      unfold assignsStatus in A. apply andb_prop in A. destruct A as [T Q].
      exists (JS.str st). split; [now apply truthy_str |].
      split; [now apply inEnum_In |].
      intros Heq. rewrite Heq, String.eqb_refl in Q. discriminate.
    + right. split; [| auto]. intros [s [Hs [Hin _]]]. subst st.
      apply inEnum_In in Hin. simpl in E. congruence.
  - right. split; [| auto]. intros [s [Hs [Hin Hne]]]. subst st.
    unfold assignsStatus in A. rewrite (In_enum_truthy _ Hin) in A. simpl in A.
    apply negb_false_iff, String.eqb_eq in A. congruence.
Qed.

(** What one call does to the stored complaint, by whether it supplies a new
    status value. *)
Lemma patchStatus_step (db : Collection) (now : Z) (id : string)
  (st cm : option string) (c : Complaint) :
  validStore db -> lookup db id = Some c ->
  let db' := fst (patchStatus db now id st cm) in
  validStore db' /\
  exists c', lookup db' id = Some c' /\
    ((suppliesNewStatus c st /\ status c' = JS.str st /\ status c' <> status c
      /\ statusHistory c' = statusHistory c ++ [StatusHistory.mk (JS.str st) now])
     \/ (~ suppliesNewStatus c st /\ status c' = status c
         /\ statusHistory c' = statusHistory c)).
Proof.
  intros Hdb Hc db'.
  destruct (suppliesNewStatus_dec c st) as [[S [A E]]|[S AE]].
  - destruct (patchStatus_ok db now id st cm c Hdb Hc) as [P [L V]];
      [now rewrite A |].
    unfold db'. rewrite P. simpl. split; [exact V |].
    exists (applyPatch c now st cm). split; [exact L |]. left.
    rewrite applyPatch_status, applyPatch_history, A.
    pose proof S as [s [Hs [_ Hne]]]. subst st. simpl. repeat split; auto.
  - destruct (assignsStatus c st) eqn:A.
    + destruct AE as [AE|E]; [discriminate |].
      destruct (patchStatus_refused db now id st cm c Hdb Hc) as [paths P];
        [now rewrite A |].
      unfold db'. rewrite P. simpl. split; [exact Hdb |].
      exists c. split; [exact Hc |]. right. auto.
    + destruct (patchStatus_ok db now id st cm c Hdb Hc) as [P [L V]];
        [now rewrite A |].
      unfold db'. rewrite P. simpl. split; [exact V |].
      exists (applyPatch c now st cm). split; [exact L |]. right.
      rewrite applyPatch_status, applyPatch_history, A. auto.
Qed.






(** ** Failure and the collection *)

Lemma lookup_None_patch (db : Collection) (now : Z) (id : string)
  (st cm : option string) :
  lookup db id = None -> fst (patchStatus db now id st cm) = db.
Proof.
  unfold lookup, patchStatus.
  destruct (findById db id) as [e|[c|]]; try discriminate; reflexivity.
Qed.

(** C7: a request that is answered with an error status leaves the collection
    exactly as it was, so every stored complaint, its comments included, is
    what it was before the request.  This covers an UpdateStatus call refused
    for its status while carrying a comment, and a refused Create. *)
Theorem failure_writes_nothing (env : Env) (db : Collection) (rq : Request) :
  (400 <= statusCode (snd (handle env db rq)))%nat ->
  fst (handle env db rq) = db
  /\ (forall id c, lookup db id = Some c ->
        exists c', lookup (fst (handle env db rq)) id = Some c'
                   /\ comments c' = comments c /\ c' = c).
Proof.
  intros Hfail.
  assert (E : fst (handle env db rq) = db).
  { destruct rq as [oid now body| |now id st cm|email password];
      simpl in *; try reflexivity.
    - unfold postComplaints in *.
      destruct (saveNew db _ _) as [e|[db' saved]]; simpl in *; [reflexivity | lia].
    - unfold patchStatus in *.
      destruct (findById db id) as [e|[c|]]; simpl in *; try reflexivity.
      destruct (save db _) as [e|[db' saved]]; simpl in *; [reflexivity | lia]. }
  split; [exact E |].
  intros id c Hc. exists c. rewrite E. auto.
Qed.

Lemma failure_writes_nothing_witness :
  statusCode (snd (patchStatus db1 200%Z id1 (Some "Closed") (Some "checked"))) = 400%nat
  /\ fst (patchStatus db1 200%Z id1 (Some "Closed") (Some "checked")) = db1
  /\ option_map comments
       (lookup (fst (patchStatus db1 200%Z id1 (Some "Closed") (Some "checked"))) id1)
     = Some [].
Proof.
  assert (H : (400 <= statusCode
                 (snd (handle defaultEnv db1
                         (UpdateStatus 200%Z id1 (Some "Closed") (Some "checked")))))%nat).
  { simpl. lia. }
  destruct (failure_writes_nothing defaultEnv db1
              (UpdateStatus 200%Z id1 (Some "Closed") (Some "checked")) H) as [E _].
  change (fst (patchStatus db1 200%Z id1 (Some "Closed") (Some "checked")) = db1) in E.
  split; [reflexivity |]. split; [exact E |]. rewrite E. reflexivity.
Defined.

(** ** The status invariant *)

Lemma handle_valid (env : Env) (db : Collection) (rq : Request) :
  validStore db -> validStore (fst (handle env db rq)).
Proof.
  intros Hdb. destruct rq as [oid now body| |now id st cm|email password];
    simpl; try assumption.
  - unfold postComplaints.
    destruct (saveNew db _ _) as [e|[db' saved]] eqn:S; simpl; [assumption |].
    apply saveNew_inv in S. destruct S as [_ [-> [V _]]].
    apply Forall_app. split; [assumption | now constructor].
  - destruct (lookup db id) as [c|] eqn:L.
    + now destruct (patchStatus_step db now id st cm c Hdb L) as [V _].
    + now rewrite lookup_None_patch.
Qed.

Lemma reachable_valid (env : Env) (db : Collection) : reachable env db -> validStore db.
Proof.
  induction 1 as [|db rq _ IH]; [constructor | now apply handle_valid].
Qed.

Lemma isValid_status (c : Complaint) : isValid c = true -> In (status c) statusEnum.
Proof.
  rewrite isValid_spec. intros V.
  repeat (apply andb_prop in V; destruct V as [V ?]). now apply inEnum_In.
Qed.

(** C8: in every collection the service can reach, each complaint's status
    is one of the five enumerated values.  A request whose handler would
    assign any other value is answered 400 and writes nothing.  A request
    other than UpdateStatus leaves every stored complaint, its status
    included, untouched: it can only add complaints at the end. *)
Theorem status_always_enumerated (env : Env) (db : Collection) :
  reachable env db ->
  (forall c, In c db -> In (status c) statusEnum)
  /\ (forall rq s, attemptedStatus db rq = Some s -> ~ In s statusEnum ->
        statusCode (snd (handle env db rq)) = 400%nat
        /\ fst (handle env db rq) = db)
  /\ (forall rq, isUpdateStatus rq = false ->
        exists added, fst (handle env db rq) = db ++ added).
Proof.
  intros Hreach. pose proof (reachable_valid env db Hreach) as Hdb.
  split; [| split].
  - intros c Hin. apply isValid_status. exact (validStore_In _ _ Hdb Hin).
  - intros rq s Hatt Hnot.
    assert (E : inEnum s = false).
    { destruct (inEnum s) eqn:E; [| reflexivity]. apply inEnum_In in E. contradiction. }
    destruct rq as [oid now body| |now id st cm|email password];
      simpl in Hatt; try discriminate.
    + simpl. unfold postComplaints, saveNew, bind.
      set (c := pushHistory _ _).
      assert (V : isValid c = false).
      { rewrite isValid_spec. unfold c. simpl. rewrite Hatt, E.
        now rewrite andb_false_r. }
      destruct (castErrors body) as [|p ps]; [| simpl; auto].
      destruct (validate_fail _ V) as [paths ->]. simpl. auto.
    + destruct (lookup db id) as [c|] eqn:L; [| discriminate].
      destruct (assignsStatus c st) eqn:A; [| discriminate].
      inversion Hatt. subst s.
      destruct (patchStatus_refused db now id st cm c Hdb L) as [paths P];
        [now rewrite A |].
      simpl. rewrite P. simpl. auto.
  - intros rq Hrq.
    destruct rq as [oid now body| |now id st cm|email password];
      simpl in *; try discriminate; try (exists []; now rewrite app_nil_r).
    unfold postComplaints.
    destruct (saveNew db _ _) as [e|[db' saved]] eqn:S; simpl.
    + exists []. now rewrite app_nil_r.
    + apply saveNew_inv in S. destruct S as [_ [-> _]]. now eexists.
Qed.

Lemma db1_reachable : reachable defaultEnv db1.
Proof. exact (reach_step defaultEnv [] (Create 1%N 100%Z leak) (reach_empty _)). Qed.

Lemma status_always_enumerated_witness :
  (forall c, In c db1 -> In (status c) statusEnum)
  /\ fst (postComplaints db1 2%N 200%Z noise) = db1.
Proof.
  destruct (status_always_enumerated defaultEnv db1 db1_reachable) as [H1 [H2 _]].
  split; [exact H1 |].
  refine (proj2 (H2 (Create 2%N 200%Z noise) "Closed" eq_refl _)).
  simpl. intros H. repeat (destruct H as [H|H]; [discriminate |]). exact H.
Defined.

(** ** Login *)

Lemma or_nonempty (v : option string) (dflt : string) :
  dflt <> "" -> JS.or v dflt <> "".
Proof.
  unfold JS.or. destruct v as [[|a s]|]; simpl; auto; discriminate.
Qed.

Lemma adminLogin_present (env : Env) (e p : string) :
  e <> "" -> p <> "" ->
  adminLogin env (Some e) (Some p) =
  if String.eqb (JS.trim e) (configuredEmail env)
     && String.eqb (JS.trim p) (configuredPassword env)
  then LoginJson 200
         {| payload_email := e; payload_role := "admin";
            secret := JS.or (JWT_SECRET env) "prasad123"; expiresIn := "24h" |}
         (JS.trim e)
  else ErrorJson 401 (Message "Invalid credentials").
Proof.
  intros He Hp. unfold adminLogin.
  rewrite (truthy_Some e He), (truthy_Some p Hp). reflexivity.
Qed.

(** C5 as stated does not hold: an email of blanks only is empty once
    trimmed, yet the login is answered 401, not 400. *)
Lemma login_blank_email_counterexample :
  JS.trim "   " = ""
  /\ adminLogin defaultEnv (Some "   ") (Some "prasad123")
     = ErrorJson 401 (Message "Invalid credentials").
Proof. split; reflexivity. Qed.

(** C5, amended: Login answers 400 when the email or the password, as
    submitted, is missing or empty.  Otherwise both are trimmed: when both
    trimmed values equal the configured credentials the answer is 200 with a
    signed token and the trimmed email, and in every other case it is 401,
    whichever field differs; an input of white space only is such a case. *)
Theorem login_outcomes (env : Env) (email password : option string) :
  (missingOrEmpty email \/ missingOrEmpty password ->
   adminLogin env email password
   = ErrorJson 400 (Message "Email and password are required"))
  /\ (forall e p, email = Some e -> password = Some p -> e <> "" -> p <> "" ->
        (JS.trim e = configuredEmail env /\ JS.trim p = configuredPassword env ->
         exists token, adminLogin env email password = LoginJson 200 token (JS.trim e))
        /\ (JS.trim e <> configuredEmail env \/ JS.trim p <> configuredPassword env ->
            adminLogin env email password
            = ErrorJson 401 (Message "Invalid credentials"))
        /\ (JS.trim e = "" \/ JS.trim p = "" ->
            adminLogin env email password
            = ErrorJson 401 (Message "Invalid credentials"))).
Proof.
  split.
  - unfold missingOrEmpty. rewrite <- !truthy_false.
    intros [H|H]; unfold adminLogin; rewrite H; simpl; [reflexivity |].
    now rewrite orb_true_r.
  - intros e p -> -> He Hp. rewrite (adminLogin_present env e p He Hp).
    assert (Hmis : JS.trim e <> configuredEmail env \/ JS.trim p <> configuredPassword env ->
                   String.eqb (JS.trim e) (configuredEmail env)
                   && String.eqb (JS.trim p) (configuredPassword env) = false).
    { intros [H|H]; apply String.eqb_neq in H; rewrite H; simpl; [reflexivity |].
      apply andb_false_r. }
    split; [| split].
    + intros [E1 E2]. rewrite E1, E2, !String.eqb_refl. simpl. now eexists.
    + intros H. now rewrite (Hmis H).
    + intros H. rewrite Hmis; [reflexivity |].
      destruct H as [H|H]; [left | right]; rewrite H; intros Q; symmetry in Q;
        revert Q; now apply or_nonempty.
Qed.

Lemma login_outcomes_witness :
  adminLogin defaultEnv None (Some "prasad123")
    = ErrorJson 400 (Message "Email and password are required")
  /\ (exists token,
        adminLogin defaultEnv (Some " prasad@gmail.com ") (Some "prasad123 ")
        = LoginJson 200 token "prasad@gmail.com")
  /\ adminLogin defaultEnv (Some " admin@x.com ") (Some " wrong ")
     = ErrorJson 401 (Message "Invalid credentials").
Proof.
  split; [| split].
  - apply (proj1 (login_outcomes defaultEnv None (Some "prasad123"))).
    left. left. reflexivity.
  - destruct (proj2 (login_outcomes defaultEnv (Some " prasad@gmail.com ")
                       (Some "prasad123 "))
                " prasad@gmail.com " "prasad123 " eq_refl eq_refl)
      as [H _]; try discriminate.
    apply H. split; reflexivity.
  - destruct (proj2 (login_outcomes defaultEnv (Some " admin@x.com ") (Some " wrong "))
                " admin@x.com " " wrong " eq_refl eq_refl)
      as [_ [H _]]; try discriminate.
    apply H. left. discriminate.
Defined.

(** C10: when a login succeeds and the submitted email has white space
    around it, the token's payload holds the email as submitted while the
    reply's email field holds the trimmed one, so the two differ. *)
Theorem token_carries_raw_email (env : Env) (email password : option string)
  (code : nat) (token : Token) (cleanEmail : string) :
  adminLogin env email password = LoginJson code token cleanEmail ->
  JS.trim (JS.str email) <> JS.str email ->
  payload_email token = JS.str email
  /\ cleanEmail = JS.trim (JS.str email)
  /\ payload_email token <> cleanEmail.
Proof.
  unfold adminLogin.
  destruct (negb (JS.truthy email) || negb (JS.truthy password)); [discriminate |].
  destruct (String.eqb _ _ && String.eqb _ _); [| discriminate].
  intros H Hws. inversion H. subst. simpl. repeat split; congruence.
Qed.

Lemma token_carries_raw_email_witness :
  exists token,
    adminLogin defaultEnv (Some " prasad@gmail.com ") (Some "prasad123")
    = LoginJson 200 token "prasad@gmail.com"
    /\ payload_email token = " prasad@gmail.com ".
Proof.
  eexists. split; [reflexivity |].
  refine (proj1 (token_carries_raw_email defaultEnv (Some " prasad@gmail.com ")
                   (Some "prasad123") 200 _ "prasad@gmail.com" eq_refl _)).
  discriminate.
Defined.

(** ** The JSON form of a document *)

Lemma getProp_absent {V : Type} (o : JsObject V) (k : string) :
  hasProp o k = false -> getProp o k = None.
Proof.
  induction o as [|[k' v] o IH]; simpl; [reflexivity |].
  destruct (String.eqb k' k); simpl; [discriminate | exact IH].
Qed.

Lemma getProp_setProp {V : Type} (o : JsObject V) (k k' : string) (v : option V) :
  getProp (setProp o k v) k' = if String.eqb k k' then v else getProp o k'.
Proof.
  induction o as [|[k0 v0] o IH]; simpl.
  - destruct (String.eqb k k'); reflexivity.
  - destruct (String.eqb k0 k) eqn:E; simpl.
    + apply String.eqb_eq in E. subst k0. destruct (String.eqb k k'); reflexivity.
    + rewrite IH. destruct (String.eqb k k') eqn:E'; [| reflexivity].
      apply String.eqb_eq in E'. subst k'. now rewrite E.
Qed.

Lemma hasProp_setProp {V : Type} (o : JsObject V) (k k' : string) (v : option V) :
  hasProp (setProp o k v) k' = String.eqb k k' || hasProp o k'.
Proof.
  unfold hasProp. induction o as [|[k0 v0] o IH]; simpl.
  - reflexivity.
  - destruct (String.eqb k0 k) eqn:E; simpl.
    + apply String.eqb_eq in E. subst k0. now destruct (String.eqb k k').
    + rewrite IH. now destruct (String.eqb k0 k'), (String.eqb k k').
Qed.

Lemma getProp_deleteProp {V : Type} (o : JsObject V) (k k' : string) :
  getProp (deleteProp o k) k' = if String.eqb k k' then None else getProp o k'.
Proof.
  unfold deleteProp. induction o as [|[k0 v0] o IH]; simpl.
  - now destruct (String.eqb k k').
  - destruct (String.eqb k0 k) eqn:E; simpl.
    + apply String.eqb_eq in E. subst k0. rewrite IH. now destruct (String.eqb k k').
    + rewrite IH. destruct (String.eqb k0 k') eqn:E0; [| reflexivity].
      apply String.eqb_eq in E0. subst k0. rewrite String.eqb_sym in E. now rewrite E.
Qed.

Lemma hasProp_deleteProp {V : Type} (o : JsObject V) (k k' : string) :
  hasProp (deleteProp o k) k' = negb (String.eqb k k') && hasProp o k'.
Proof.
  unfold hasProp, deleteProp. induction o as [|[k0 v0] o IH]; simpl.
  - now rewrite andb_false_r.
  - destruct (String.eqb k0 k) eqn:E; simpl.
    + apply String.eqb_eq in E. subst k0. rewrite IH.
      now destruct (String.eqb k k').
    + rewrite IH. destruct (String.eqb k0 k') eqn:E0; simpl.
      * apply String.eqb_eq in E0. subst k0. rewrite String.eqb_sym in E.
        now rewrite E.
      * reflexivity.
Qed.

(** X1: the transform removes [_id] and [__v], leaves an [id] property
    holding what [_id] held (overwriting an [id] that was there), and keeps
    every other property, present or absent, with its value. *)
Theorem transform_renames_id {D V : Type} (doc : D) (ret : JsObject V) :
  hasProp (transform doc ret) "_id" = false
  /\ hasProp (transform doc ret) "__v" = false
  /\ hasProp (transform doc ret) "id" = true
  /\ getProp (transform doc ret) "id" = getProp ret "_id"
  /\ (forall k, k <> "id" -> k <> "_id" -> k <> "__v" ->
        getProp (transform doc ret) k = getProp ret k
        /\ hasProp (transform doc ret) k = hasProp ret k).
Proof.
  unfold transform.
  repeat split;
    rewrite ?hasProp_deleteProp, ?getProp_deleteProp, ?hasProp_setProp,
      ?getProp_setProp; try reflexivity.
  - apply String.eqb_neq in H, H0, H1.
    rewrite (String.eqb_sym "__v" k), (String.eqb_sym "_id" k),
      (String.eqb_sym "id" k), H, H0, H1. reflexivity.
  - apply String.eqb_neq in H, H0, H1.
    rewrite (String.eqb_sym "__v" k), (String.eqb_sym "_id" k),
      (String.eqb_sym "id" k), H, H0, H1. reflexivity.
Qed.

(** X2: on an object without [_id] the transform leaves an [id] property
    that is [undefined], whatever [id] held before.  Its own output is such
    an object, so a second pass erases the id the first pass set. *)
Theorem transform_without_id {D V : Type} (doc : D) (ret : JsObject V) :
  (hasProp ret "_id" = false ->
   hasProp (transform doc ret) "id" = true /\ getProp (transform doc ret) "id" = None)
  /\ hasProp (transform doc (transform doc ret)) "id" = true
  /\ getProp (transform doc (transform doc ret)) "id" = None.
Proof.
  assert (G : forall o : JsObject V, hasProp o "_id" = false ->
              hasProp (transform doc o) "id" = true
              /\ getProp (transform doc o) "id" = None).
  { intros o H. unfold transform.
    rewrite !hasProp_deleteProp, !getProp_deleteProp, hasProp_setProp, getProp_setProp.
    simpl. split; [reflexivity | now apply getProp_absent]. }
  split; [apply G |]. apply G.
  unfold transform. rewrite !hasProp_deleteProp. reflexivity.
Qed.

Lemma transform_without_id_witness :
  getProp (transform tt [("id", Some "stale"); ("status", Some "Pending")]) "id" = None.
Proof.
  apply (proj1 (transform_without_id tt [("id", Some "stale"); ("status", Some "Pending")])).
  reflexivity.
Defined.

(** ** What no request undoes *)

Lemma extends_refl (c : Complaint) : extends c c.
Proof.
  unfold extends. repeat split; try reflexivity; exists []; now rewrite app_nil_r.
Qed.

Lemma extends_trans (a b c : Complaint) : extends a b -> extends b c -> extends a c.
Proof.
  unfold extends.
  intros [A1 [A2 [A3 [A4 [A5 [A6 [[cs Ac] [hs Ah]]]]]]]]
         [B1 [B2 [B3 [B4 [B5 [B6 [[cs' Bc] [hs' Bh]]]]]]]].
  repeat split; try congruence.
  - exists (cs ++ cs'). now rewrite Bc, Ac, app_assoc.
  - exists (hs ++ hs'). now rewrite Bh, Ah, app_assoc.
Qed.

Lemma applyPatch_extends (c : Complaint) (now : Z) (st cm : option string) :
  extends c (applyPatch c now st cm).
Proof.
  unfold extends.
  rewrite applyPatch_id, applyPatch_comments, applyPatch_history.
  unfold applyPatch.
  destruct (JS.truthy cm); simpl; destruct (JS.truthy st && _) eqn:E; simpl;
    repeat split; try reflexivity;
    try (eexists; reflexivity); try (exists []; now rewrite app_nil_r);
    destruct (assignsStatus c st);
    try (eexists; reflexivity); exists []; now rewrite app_nil_r.
Qed.

Lemma Forall2_diag {A} (R : A -> A -> Prop) (l : list A) :
  (forall x, R x x) -> Forall2 R l l.
Proof. intros H. induction l; constructor; auto. Qed.

Lemma Forall2_chain {A} (R : A -> A -> Prop) (l1 l2 l3 : list A) :
  (forall x y z, R x y -> R y z -> R x z) ->
  Forall2 R l1 l2 -> Forall2 R l2 l3 -> Forall2 R l1 l3.
Proof.
  intros Ht H12. revert l3. induction H12 as [|x y l1 l2 Hxy _ IH]; intros l3 H23.
  - inversion H23. constructor.
  - inversion H23; subst. constructor; eauto.
Qed.

Lemma updateOne_extends (db : Collection) (c c' : Complaint) (oid : ObjectId) :
  find (fun d => N.eqb (_id d) oid) db = Some c ->
  _id c' = oid -> extends c c' ->
  Forall2 extends db (updateOne c' db).
Proof.
  intros Hfind Hid Hext. induction db as [|d db IH]; simpl in *; [discriminate |].
  rewrite Hid. destruct (N.eqb (_id d) oid).
  - inversion Hfind. subst d. constructor; [exact Hext |].
    apply Forall2_diag, extends_refl.
  - constructor; [apply extends_refl | now apply IH].
Qed.

(** What one request does to the collection: a new valid complaint at the
    end, with an id and a trackId nobody has, or the same complaints in the
    same places, each possibly extended. *)
Lemma handle_shape (env : Env) (db : Collection) (rq : Request) :
  (exists oid now body c,
      rq = Create oid now body
      /\ handle env db rq = (db ++ [c], ComplaintJson 201 c)
      /\ isValid c = true
      /\ existsb (fun d => N.eqb (_id d) (_id c)) db = false
      /\ existsb (sameTrackId (trackId c)) db = false)
  \/ Forall2 extends db (fst (handle env db rq)).
Proof.
  destruct rq as [oid now body| |now id st cm|email password]; simpl;
    try (right; apply Forall2_diag, extends_refl).
  - unfold postComplaints.
    destruct (saveNew db _ _) as [e|[db' saved]] eqn:S; simpl.
    + right. apply Forall2_diag, extends_refl.
    + left. apply saveNew_inv in S. destruct S as [-> [-> [V [N1 [N2 _]]]]].
      exists oid, now, body. eexists. repeat split; eauto.
  - right. unfold patchStatus, findById.
    destruct (castObjectId id) as [oid|]; simpl;
      [| apply Forall2_diag, extends_refl].
    destruct (find _ db) as [c|] eqn:F; simpl; [| apply Forall2_diag, extends_refl].
    match goal with |- context [save db ?d] => set (c' := d) end.
    destruct (save db c') as [e|[db' saved]] eqn:S; simpl;
      [apply Forall2_diag, extends_refl |].
    apply save_inv in S. destruct S as [_ [-> _]].
    apply (updateOne_extends db c c' oid F).
    + unfold c'. fold (applyPatch c now st cm). rewrite applyPatch_id.
      destruct (find_some _ _ F) as [_ Q]. now apply N.eqb_eq in Q.
    + apply applyPatch_extends.
Qed.

(** X3: no sequence of requests deletes, moves or rewrites a complaint.
    After any requests the collection is the initial complaints, in their
    places, each with the same id, trackId, description, category, createdAt
    and evidence and with its comments and status history only extended at
    the end, followed by the complaints created since. *)
Theorem requests_only_extend (env : Env) (rqs : list Request) (db : Collection) :
  exists kept added,
    run env db rqs = kept ++ added
    /\ Forall2 extends db kept
    /\ (List.length db <= List.length (run env db rqs))%nat.
Proof.
  assert (G : forall db, exists kept added,
               run env db rqs = kept ++ added /\ Forall2 extends db kept).
  { induction rqs as [|rq rqs IH]; intros db0.
    - exists db0, []. simpl. rewrite app_nil_r.
      split; [reflexivity | apply Forall2_diag, extends_refl].
    - change (run env db0 (rq :: rqs)) with (run env (fst (handle env db0 rq)) rqs).
      destruct (IH (fst (handle env db0 rq))) as [k [a [Hrun Hk]]].
      rewrite Hrun.
      destruct (handle_shape env db0 rq)
        as [[oid [now [body [c [_ [Hh _]]]]]]|Hext].
      + rewrite Hh in Hk. simpl in Hk.
        apply Forall2_app_inv_l in Hk. destruct Hk as [k1 [k2 [H1 [_ ->]]]].
        exists k1, (k2 ++ a). now rewrite app_assoc.
      + exists k, a. split; [reflexivity |].
        exact (Forall2_chain _ _ _ _ extends_trans Hext Hk). }
  destruct (G db) as [kept [added [Hrun Hk]]].
  exists kept, added. split; [exact Hrun |]. split; [exact Hk |].
  rewrite Hrun, length_app, (Forall2_length Hk). lia.
Qed.

(** ** Invariants of the reachable collections *)

Lemma NoDup_snoc {A} (l : list A) (x : A) : NoDup l -> ~ In x l -> NoDup (l ++ [x]).
Proof.
  induction 1 as [|y l Hy Hl IH]; simpl; intros Hx.
  - constructor; [intros [] | constructor].
  - constructor.
    + rewrite in_app_iff. simpl. intros [H|[H|[]]]; [contradiction |].
      apply Hx. now left.
    + apply IH. intros H. apply Hx. now right.
Qed.

Lemma extends_same_keys (db db' : Collection) :
  Forall2 extends db db' ->
  map _id db' = map _id db /\ map trackId db' = map trackId db.
Proof.
  induction 1 as [|c c' db db' [H1 [H2 _]] _ [IH1 IH2]]; simpl; [auto |].
  now rewrite H1, H2, IH1, IH2.
Qed.

(** X4: in every collection the service can reach, no two complaints share
    an id and no two share a trackId. *)
Theorem reachable_unique_keys (env : Env) (db : Collection) :
  reachable env db -> NoDup (map _id db) /\ NoDup (map trackId db).
Proof.
  induction 1 as [|db rq Hreach [IH1 IH2]]; [split; constructor |].
  destruct (handle_shape env db rq)
    as [[oid [now [body [c [_ [Hh [V [N1 N2]]]]]]]]|Hext].
  - rewrite Hh. simpl. rewrite !map_app. simpl. split; apply NoDup_snoc; auto.
    + intros Hin. apply in_map_iff in Hin. destruct Hin as [d [Hd Hin]].
      assert (E : existsb (fun d => N.eqb (_id d) (_id c)) db = true).
      { apply existsb_exists. exists d. split; [exact Hin | now apply N.eqb_eq]. }
      congruence.
    + intros Hin. apply in_map_iff in Hin. destruct Hin as [d [Hd Hin]].
      assert (E : existsb (sameTrackId (trackId c)) db = true).
      { apply existsb_exists. exists d. split; [exact Hin |].
        rewrite isValid_spec in V. repeat (apply andb_prop in V; destruct V as [V ?]).
        apply sameTrackId_true. exists (JS.str (trackId c)).
        split; [now apply truthy_str | rewrite Hd; now apply truthy_str]. }
      congruence.
  - destruct (extends_same_keys _ _ Hext) as [E1 E2]. now rewrite E1, E2.
Qed.

Lemma reachable_unique_keys_witness :
  List.length db2 = 2%nat
  /\ NoDup (map _id db2) /\ NoDup (map trackId db2).
Proof.
  split; [reflexivity |].
  apply (reachable_unique_keys defaultEnv db2).
  exact (reach_step defaultEnv db1 (Create 2%N 150%Z second)
           (reach_step defaultEnv [] (Create 1%N 100%Z leak) (reach_empty _))).
Defined.

Lemma Forall_updateOne (P : Complaint -> Prop) (db : Collection) (c : Complaint) :
  Forall P db -> P c -> Forall P (updateOne c db).
Proof.
  intros Hdb Hc. induction Hdb as [|d db Hd Hdb IH]; simpl; [constructor |].
  destruct (N.eqb (_id d) (_id c)); constructor; assumption.
Qed.

Lemma lastStatus_pushHistory (c : Complaint) (e : StatusHistory.t) :
  lastStatus (pushHistory c e) = Some (StatusHistory.status e).
Proof. unfold lastStatus. simpl. now rewrite rev_app_distr. Qed.

Lemma lastStatus_applyPatch (c : Complaint) (now : Z) (st cm : option string) :
  lastStatus c = Some (status c) ->
  lastStatus (applyPatch c now st cm) = Some (status (applyPatch c now st cm)).
Proof.
  intros H. unfold applyPatch.
  destruct (JS.truthy cm); simpl; destruct (JS.truthy st && _);
    try exact H; now rewrite lastStatus_pushHistory.
Qed.

(** X5: in every collection the service can reach, each complaint has a
    status history that is not empty and whose last entry carries the
    complaint's current status. *)
Theorem reachable_history_current (env : Env) (db : Collection) :
  reachable env db ->
  forall c, In c db ->
    statusHistory c <> [] /\ lastStatus c = Some (status c).
Proof.
  intros Hreach.
  assert (G : Forall (fun c => lastStatus c = Some (status c)) db).
  { induction Hreach as [|db rq _ IH]; [constructor |].
    destruct rq as [oid now body| |now id st cm|email password]; simpl;
      try exact IH.
    - unfold postComplaints.
      destruct (saveNew db _ _) as [e|[db' saved]] eqn:S; simpl; [exact IH |].
      apply saveNew_inv in S. destruct S as [_ [-> _]].
      apply Forall_app. split; [exact IH |]. constructor; [| constructor].
      now rewrite lastStatus_pushHistory.
    - unfold patchStatus, findById.
      destruct (castObjectId id) as [oid|]; simpl; [| exact IH].
      destruct (find _ db) as [c|] eqn:F; simpl; [| exact IH].
      match goal with |- context [save db ?d] => set (c' := d) end.
      destruct (save db c') as [e|[db' saved]] eqn:S; simpl; [exact IH |].
      apply save_inv in S. destruct S as [_ [-> _]].
      apply Forall_updateOne; [exact IH |].
      unfold c'. fold (applyPatch c now st cm). apply lastStatus_applyPatch.
      destruct (find_some _ _ F) as [Hin _].
      rewrite Forall_forall in IH. now apply IH. }
  intros c Hin. rewrite Forall_forall in G. specialize (G c Hin).
  split; [| exact G].
  unfold lastStatus in G. intros E. rewrite E in G. discriminate.
Qed.

Lemma reachable_history_current_witness :
  lastStatus (List.hd (newComplaint 0%N 0%Z leak) db1) = Some "Pending".
Proof.
  apply (reachable_history_current defaultEnv db1
           (reach_step defaultEnv [] (Create 1%N 100%Z leak) (reach_empty _))
           (List.hd (newComplaint 0%N 0%Z leak) db1)).
  left. reflexivity.
Defined.

(** ** Creation, further *)

Lemma find_snoc {A} (f : A -> bool) (l : list A) (x : A) :
  find f (l ++ [x]) =
  match find f l with
  | Some y => Some y
  | None => if f x then Some x else None
  end.
Proof.
  induction l as [|y l IH]; simpl; [reflexivity |].
  destruct (f y); [reflexivity | exact IH].
Qed.

Lemma find_none_existsb {A} (f : A -> bool) (l : list A) :
  existsb f l = false -> find f l = None.
Proof.
  induction l as [|y l IH]; simpl; [reflexivity |].
  destruct (f y); simpl; [discriminate | exact IH].
Qed.

Lemma postComplaints_inv (db db' : Collection) (oid : ObjectId) (now : Z)
  (body : CreateBody) (code : nat) (c : Complaint) :
  postComplaints db oid now body = (db', ComplaintJson code c) ->
  code = 201%nat /\ db' = db ++ [c]
  /\ c = pushHistory (newComplaint oid now body)
           (StatusHistory.mk (status (newComplaint oid now body))
              (createdAt (newComplaint oid now body)))
  /\ isValid c = true
  /\ existsb (fun d => N.eqb (_id d) (_id c)) db = false
  /\ existsb (sameTrackId (trackId c)) db = false.
Proof.
  unfold postComplaints.
  destruct (saveNew db _ _) as [e|[db1 saved]] eqn:S; intros H; inversion H.
  subst. apply saveNew_inv in S. destruct S as [Hc [Hdb [V [N1 [N2 _]]]]].
  rewrite <- Hc in *. repeat split; auto.
Qed.

(** X6: a complaint that Create has answered with is found under its id by
    the next lookup and is among what List returns; the complaints that were
    stored before are still found under their ids. *)
Theorem create_then_lookup (db db' : Collection) (oid : ObjectId) (now : Z)
  (body : CreateBody) (code : nat) (c : Complaint) (id : string) :
  postComplaints db oid now body = (db', ComplaintJson code c) ->
  castObjectId id = Some oid ->
  lookup db' id = Some c
  /\ (forall id' c0, lookup db id' = Some c0 -> lookup db' id' = Some c0)
  /\ (exists data, snd (getComplaints db') = ListJson 200 data /\ In c data).
Proof.
  intros Hpost Hcast.
  apply postComplaints_inv in Hpost.
  destruct Hpost as [_ [-> [Hc [_ [N1 _]]]]].
  assert (Hid : _id c = oid) by (rewrite Hc; reflexivity).
  split; [| split].
  - unfold lookup, findById. rewrite Hcast. unfold ret. rewrite find_snoc.
    rewrite Hid in N1. rewrite (find_none_existsb _ _ N1), Hid, N.eqb_refl.
    reflexivity.
  - intros id' c0 H0.
    destruct (lookup_inv _ _ _ H0) as [oid' [Hcast' [Hfind _]]].
    unfold lookup, findById. rewrite Hcast'. unfold ret.
    now rewrite find_snoc, Hfind.
  - exists (sortByCreatedAtDesc (db ++ [c])). split; [reflexivity |].
    apply (Permutation_in _ (sort_perm (db ++ [c]))).
    apply in_or_app. right. now left.
Qed.

Lemma create_then_lookup_witness : lookup db1 id1 = Some (List.hd (newComplaint 0%N 0%Z leak) db1).
Proof.
  exact (proj1 (create_then_lookup [] db1 1%N 100%Z leak 201
                  (List.hd (newComplaint 0%N 0%Z leak) db1) id1 eq_refl eq_refl)).
Defined.

(** X7: an accepted Create takes the status, createdAt, comments and status
    history the body presets, and the defaults (Pending, the time of the
    call, none, none) for what it leaves out; the status is one of the five
    values, and the entry for that status at createdAt is added after any
    preset history.  The complaint is stored last. *)
Theorem create_honours_body (db db' : Collection) (oid : ObjectId) (now : Z)
  (body : CreateBody) (code : nat) (c : Complaint) :
  postComplaints db oid now body = (db', ComplaintJson code c) ->
  code = 201%nat /\ db' = db ++ [c] /\ _id c = oid
  /\ status c = match body_status body with Some s => s | None => "Pending" end
  /\ In (status c) statusEnum
  /\ createdAt c = match body_createdAt body with Some t => t | None => now end
  /\ comments c = match body_comments body with Some l => l | None => [] end
  /\ statusHistory c =
       match body_statusHistory body with Some h => h | None => [] end
       ++ [StatusHistory.mk (status c) (createdAt c)].
Proof.
  intros Hpost. apply postComplaints_inv in Hpost.
  destruct Hpost as [Hcode [Hdb [Hc [V _]]]].
  apply isValid_status in V. rewrite Hc in *. simpl in *. repeat split; auto.
Qed.

Lemma create_honours_body_witness :
  exists c,
    postComplaints db1 2%N 200%Z
      {| body_trackId := Some "T2"; body_description := Some "noise";
         body_category := Some "street"; body_status := Some "Resolved";
         body_createdAt := Some 50%Z; body_evidence := None;
         body_comments := Some ["seen"]; body_statusHistory := None |}
    = (db1 ++ [c], ComplaintJson 201 c)
    /\ status c = "Resolved" /\ createdAt c = 50%Z
    /\ statusHistory c = [StatusHistory.mk "Resolved" 50%Z].
Proof.
  eexists. split; [reflexivity |].
  match goal with |- context [status ?c = _] =>
    destruct (create_honours_body db1 (db1 ++ [c]) 2%N 200%Z
                {| body_trackId := Some "T2"; body_description := Some "noise";
                   body_category := Some "street"; body_status := Some "Resolved";
                   body_createdAt := Some 50%Z; body_evidence := None;
                   body_comments := Some ["seen"]; body_statusHistory := None |}
                201 c eq_refl)
      as [_ [_ [_ [H1 [_ [H2 [_ H3]]]]]]]
  end.
  split; [exact H1 | split; [exact H2 | reflexivity]].
Defined.

Lemma required_iff (v : option string) : required v = true <-> ~ missingOrEmpty v.
Proof.
  unfold required, missingOrEmpty. rewrite <- truthy_false.
  destruct (JS.truthy v); split; intros; congruence.
Qed.

Lemma castErrors_nil (body : CreateBody) :
  castErrors body = []
  <-> (forall t, body_createdAt body = Some t -> (Z.abs t <= 8640000000000000)%Z)
      /\ (forall h e, body_statusHistory body = Some h -> In e h ->
            (Z.abs (StatusHistory.time e) <= 8640000000000000)%Z).
Proof.
  unfold castErrors, check, isDate. split.
  - intros H. split.
    + intros t Ht. rewrite Ht in H.
      destruct (Z.abs t <=? 8640000000000000)%Z eqn:E; [| discriminate].
      now apply Z.leb_le.
    + intros h e Hh Hin. rewrite Hh in H.
      destruct (match body_createdAt body with Some t => _ | None => true end);
        [| discriminate].
      destruct (forallb _ h) eqn:F; [| discriminate].
      rewrite forallb_forall in F. apply Z.leb_le. now apply F.
  - intros [H1 H2].
    replace (match body_createdAt body with
             | Some t => (Z.abs t <=? 8640000000000000)%Z
             | None => true
             end) with true.
    + replace (match body_statusHistory body with
               | Some h =>
                   forallb (fun e => (Z.abs (StatusHistory.time e) <=? 8640000000000000)%Z) h
               | None => true
               end) with true; [reflexivity |].
      destruct (body_statusHistory body) as [h|]; [| reflexivity].
      symmetry. apply forallb_forall. intros e Hin. apply Z.leb_le. now apply (H2 h).
    + destruct (body_createdAt body) as [t|]; [| reflexivity].
      symmetry. apply Z.leb_le. now apply H1.
Qed.

Lemma postComplaints_code (db : Collection) (oid : ObjectId) (now : Z) (body : CreateBody) :
  let doc := pushHistory (newComplaint oid now body)
               (StatusHistory.mk (status (newComplaint oid now body))
                  (createdAt (newComplaint oid now body))) in
  statusCode (snd (postComplaints db oid now body)) =
  if match castErrors body with [] => true | _ => false end
     && isValid doc
     && negb (existsb (fun d => N.eqb (_id d) oid) db)
     && negb (existsb (sameTrackId (body_trackId body)) db)
  then 201%nat else 400%nat.
Proof.
  intros doc. unfold postComplaints, saveNew, bind, insertOne. fold doc.
  destruct (castErrors body) as [|p ps]; [| reflexivity].
  destruct (isValid doc) eqn:V.
  - rewrite (validate_ok _ V). simpl.
    destruct (existsb (fun d => N.eqb (_id d) oid) db); [reflexivity |].
    destruct (existsb (sameTrackId (body_trackId body)) db); reflexivity.
  - destruct (validate_fail _ V) as [paths ->]. reflexivity.
Qed.

Lemma created_isValid (oid : ObjectId) (now : Z) (body : CreateBody) :
  isValid (pushHistory (newComplaint oid now body)
             (StatusHistory.mk (status (newComplaint oid now body))
                (createdAt (newComplaint oid now body)))) = true
  <-> ~ missingOrEmpty (body_trackId body)
      /\ ~ missingOrEmpty (body_description body)
      /\ ~ missingOrEmpty (body_category body)
      /\ (forall s, body_status body = Some s -> In s statusEnum)
      /\ (forall h e, body_statusHistory body = Some h -> In e h ->
            StatusHistory.status e <> "").
Proof.
  rewrite isValid_spec. simpl. rewrite forallb_app. simpl.
  rewrite !andb_true_iff, !required_iff, inEnum_In, forallb_forall.
  split.
  - intros [[[[H1 H2] H3] H4] [H5 _]]. repeat split; auto.
    + intros s Hs. now rewrite Hs in H4.
    + intros h e Hh Hin. rewrite Hh in H5. specialize (H5 e Hin).
      intros E. rewrite E in H5. discriminate.
  - intros [H1 [H2 [H3 [H4 H5]]]].
    assert (Hst : In (match body_status body with Some s => s | None => "Pending" end)
                    statusEnum).
    { destruct (body_status body) as [s|]; [now apply H4 | simpl; auto]. }
    repeat split; auto.
    + intros e Hin. destruct (body_statusHistory body) as [h|]; [| destruct Hin].
      apply truthy_Some. now apply (H5 h).
    + exact (In_enum_truthy _ Hst).
Qed.

(** X8: Create answers 201 or 400, and 201 exactly when description,
    category and trackId are present and not empty, a status given in the
    body is one of the five values, a createdAt given in the body is a time
    a Date can hold, a status history given in the body has no entry with an
    empty status or with a time a Date cannot hold, and no stored complaint
    has the generated id or the trackId. *)
Theorem create_succeeds_iff (db : Collection) (oid : ObjectId) (now : Z) (body : CreateBody) :
  (statusCode (snd (postComplaints db oid now body)) = 201%nat
   \/ statusCode (snd (postComplaints db oid now body)) = 400%nat)
  /\ (statusCode (snd (postComplaints db oid now body)) = 201%nat
      <-> ~ missingOrEmpty (body_trackId body)
          /\ ~ missingOrEmpty (body_description body)
          /\ ~ missingOrEmpty (body_category body)
          /\ (forall s, body_status body = Some s -> In s statusEnum)
          /\ (forall t, body_createdAt body = Some t ->
                (Z.abs t <= 8640000000000000)%Z)
          /\ (forall h e, body_statusHistory body = Some h -> In e h ->
                StatusHistory.status e <> ""
                /\ (Z.abs (StatusHistory.time e) <= 8640000000000000)%Z)
          /\ (forall d, In d db -> _id d <> oid)
          /\ (forall d, In d db -> trackId d <> body_trackId body)).
Proof.
  rewrite postComplaints_code.
  set (doc := pushHistory _ _).
  split; [destruct (_ && _ && _ && _); auto |].
  split.
  - destruct (castErrors body) as [|p ps] eqn:C; simpl; [| discriminate].
    destruct (isValid doc) eqn:V; simpl; [| discriminate].
    destruct (existsb (fun d => N.eqb (_id d) oid) db) eqn:E1; simpl; [discriminate |].
    destruct (existsb (sameTrackId (body_trackId body)) db) eqn:E2; simpl;
      [discriminate |].
    intros _. apply created_isValid in V. apply castErrors_nil in C.
    destruct V as [H1 [H2 [H3 [H4 H5]]]]. destruct C as [C1 C2].
    do 5 (split; [assumption |]).
    split; [intros h e Hh Hin; split; [now apply (H5 h) | now apply (C2 h)] |].
    split.
    + intros d Hin Q.
      assert (E : existsb (fun d => N.eqb (_id d) oid) db = true).
      { apply existsb_exists. exists d. split; [exact Hin | now apply N.eqb_eq]. }
      congruence.
    + intros d Hin Q.
      assert (E : existsb (sameTrackId (body_trackId body)) db = true).
      { apply existsb_exists. exists d. split; [exact Hin |].
        apply sameTrackId_true. apply required_iff in H1.
        exists (JS.str (body_trackId body)).
        split; [now apply truthy_str | rewrite Q; now apply truthy_str]. }
      congruence.
  - intros [H1 [H2 [H3 [H4 [H5 [H6 [H7 H8]]]]]]].
    assert (V : isValid doc = true).
    { apply created_isValid. do 4 (split; [assumption |]).
      intros h e Hh Hin. now apply (H6 h). }
    assert (C : castErrors body = []).
    { apply castErrors_nil. split; [exact H5 |].
      intros h e Hh Hin. now apply (H6 h). }
    rewrite C, V, !existsb_none; [reflexivity | |].
    + intros d Hin. destruct (sameTrackId (body_trackId body) d) eqn:E; [| reflexivity].
      apply sameTrackId_true in E. destruct E as [s [Q1 Q2]].
      exfalso. apply (H8 d Hin). congruence.
    + intros d Hin. apply N.eqb_neq. auto.
Qed.

(** ** Status updates, further *)

Lemma updateOne_same (db : Collection) (c : Complaint) (oid : ObjectId) :
  find (fun d => N.eqb (_id d) oid) db = Some c -> updateOne c db = db.
Proof.
  intros F. destruct (find_some _ _ F) as [_ Hid]. apply N.eqb_eq in Hid.
  induction db as [|d db IH]; simpl in *; [reflexivity |].
  destruct (N.eqb (_id d) oid) eqn:E.
  - inversion F. subst d. now rewrite N.eqb_refl.
  - rewrite Hid, E. f_equal. now apply IH.
Qed.

Lemma find_updateOne_ne (db : Collection) (c' : Complaint) (oid' : ObjectId) :
  _id c' <> oid' ->
  find (fun d => N.eqb (_id d) oid') (updateOne c' db)
  = find (fun d => N.eqb (_id d) oid') db.
Proof.
  intros Hne. induction db as [|d db IH]; simpl; [reflexivity |].
  destruct (N.eqb (_id d) (_id c')) eqn:E; simpl.
  - apply N.eqb_eq in E. rewrite E.
    apply N.eqb_neq in Hne. now rewrite Hne.
  - now rewrite IH.
Qed.

Lemma patch_same_status (db : Collection) (now : Z) (id : string)
  (st cm : option string) (c : Complaint) :
  validStore db -> lookup db id = Some c ->
  JS.truthy st = false \/ st = Some (status c) ->
  JS.truthy cm = false ->
  patchStatus db now id st cm = (db, ComplaintJson 200 c).
Proof.
  intros Hdb Hc Hst Hcm.
  destruct (lookup_inv _ _ _ Hc) as [oid [_ [F [_ Hin]]]].
  assert (E : applyPatch c now st cm = c).
  { unfold applyPatch. rewrite Hcm.
    destruct Hst as [T| ->]; [now rewrite T |].
    simpl. rewrite String.eqb_refl. now rewrite andb_false_r. }
  rewrite (patchStatus_found _ _ _ _ _ _ Hc), E.
  unfold save, bind. rewrite (validate_ok _ (validStore_In _ _ Hdb Hin)).
  simpl. now rewrite (updateOne_same _ _ _ F).
Qed.

(** X9: on a collection of valid documents, an update of an existing
    complaint that carries no comment and no status, an empty status or the
    status the complaint has is answered 200 with the complaint and leaves
    the collection exactly as it was.  So a status-only update that is sent
    again, at any later time, changes nothing and gets the same answer. *)
Theorem patch_status_only_idempotent (db : Collection) (id : string) (c : Complaint) :
  validStore db -> lookup db id = Some c ->
  (forall now st cm,
     JS.truthy st = false \/ st = Some (status c) -> JS.truthy cm = false ->
     patchStatus db now id st cm = (db, ComplaintJson 200 c))
  /\ (forall now now' s,
        In s statusEnum ->
        patchStatus (fst (patchStatus db now id (Some s) None)) now' id (Some s) None
        = patchStatus db now id (Some s) None).
Proof.
  intros Hdb Hc. split.
  - intros now st cm. now apply patch_same_status.
  - intros now now' s Hin.
    destruct (patchStatus_ok db now id (Some s) None c Hdb Hc) as [P [L V]].
    { simpl. apply inEnum_In in Hin. rewrite Hin. now destruct (assignsStatus _ _). }
    rewrite P. simpl.
    apply patch_same_status; [exact V | exact L | | reflexivity].
    right. f_equal. rewrite applyPatch_status. simpl.
    unfold assignsStatus. rewrite (In_enum_truthy _ Hin). simpl.
    destruct (String.eqb (status c) s) eqn:E; simpl; [| reflexivity].
    apply String.eqb_eq in E. now symmetry.
Qed.

Lemma patch_status_only_idempotent_witness :
  patchStatus (fst (patchStatus db1 200%Z id1 (Some "Resolved") None)) 300%Z id1
    (Some "Resolved") None
  = patchStatus db1 200%Z id1 (Some "Resolved") None.
Proof.
  apply (proj2 (patch_status_only_idempotent db1 id1
                  (List.hd (newComplaint 0%N 0%Z leak) db1) db1_valid eq_refl)).
  simpl. auto.
Defined.

(** X10: an update rewrites at most the complaint its id names: a lookup
    under an id that casts to another object id gives what it gave before. *)
Theorem patch_leaves_others (db : Collection) (now : Z) (id id' : string)
  (st cm : option string) (oid oid' : ObjectId) :
  castObjectId id = Some oid -> castObjectId id' = Some oid' -> oid' <> oid ->
  lookup (fst (patchStatus db now id st cm)) id' = lookup db id'.
Proof.
  intros Hid Hid' Hne. unfold patchStatus, findById. rewrite Hid. simpl.
  destruct (find _ db) as [c|] eqn:F; simpl; [| reflexivity].
  match goal with |- context [save db ?d] => set (c' := d) end.
  destruct (save db c') as [e|[db' saved]] eqn:S; simpl; [reflexivity |].
  apply save_inv in S. destruct S as [_ [-> _]].
  unfold lookup, findById. rewrite Hid'. unfold ret.
  rewrite find_updateOne_ne; [reflexivity |].
  unfold c'. fold (applyPatch c now st cm). rewrite applyPatch_id.
  destruct (find_some _ _ F) as [_ Q]. apply N.eqb_eq in Q. congruence.
Qed.

Lemma patch_leaves_others_witness :
  lookup db2 id2 <> None
  /\ lookup (fst (patchStatus db2 200%Z id1 (Some "Resolved") (Some "checked"))) id1
     <> lookup db2 id1
  /\ lookup (fst (patchStatus db2 200%Z id1 (Some "Resolved") (Some "checked"))) id2
     = lookup db2 id2.
Proof.
  split; [discriminate |]. split; [discriminate |].
  apply (patch_leaves_others db2 200%Z id1 id2 (Some "Resolved") (Some "checked")
           1%N 2%N eq_refl eq_refl).
  discriminate.
Defined.

Lemma patchStatus_comments (db : Collection) (now : Z) (id : string)
  (st cm : option string) (c : Complaint) :
  validStore db -> lookup db id = Some c ->
  validStore (fst (patchStatus db now id st cm))
  /\ exists c', lookup (fst (patchStatus db now id st cm)) id = Some c'
       /\ comments c' =
          comments c ++
          (if Nat.eqb (statusCode (snd (patchStatus db now id st cm))) 200
              && JS.truthy cm
           then [JS.str cm] else []).
Proof.
  intros Hdb Hc.
  destruct (if assignsStatus c st then inEnum (JS.str st) else true) eqn:B.
  - destruct (patchStatus_ok db now id st cm c Hdb Hc B) as [P [L V]].
    rewrite P. simpl. split; [exact V |].
    exists (applyPatch c now st cm). split; [exact L |].
    rewrite applyPatch_comments. destruct (JS.truthy cm); [reflexivity |].
    now rewrite app_nil_r.
  - destruct (patchStatus_refused db now id st cm c Hdb Hc B) as [paths P].
    rewrite P. simpl. split; [exact Hdb |].
    exists c. split; [exact Hc | now rewrite app_nil_r].
Qed.

(** X11: on a collection of valid documents, after any sequence of updates
    of a stored complaint its comments are the ones it had followed by the
    non-empty comments of the updates that were answered 200, in the order of
    the calls; a comment sent twice is stored twice, and the comment of a
    refused update is not stored. *)
Theorem comments_accumulate (calls : list PatchCall) (db : Collection) (id : string)
  (c : Complaint) :
  validStore db -> lookup db id = Some c ->
  commentsAt (runPatches db id calls) id = comments c ++ acceptedComments db id calls.
Proof.
  revert db c. induction calls as [|k calls IH]; intros db c Hdb Hc.
  - simpl. unfold commentsAt. rewrite Hc. now rewrite app_nil_r.
  - cbn [runPatches acceptedComments].
    destruct (patchStatus_comments db (call_time k) id (call_status k)
                (call_comment k) c Hdb Hc) as [V [c' [L Hcm]]].
    fold (patchCall db id k) in V, L.
    rewrite (IH _ c' V L), Hcm. now rewrite app_assoc.
Qed.

Lemma comments_accumulate_witness :
  commentsAt
    (runPatches db1 id1
       [call 200 None (Some "checked");
        call 300 (Some "Closed") (Some "lost");
        call 400 (Some "Resolved") (Some "checked")]) id1
  = ["checked"; "checked"].
Proof.
  rewrite (comments_accumulate _ db1 id1 (List.hd (newComplaint 0%N 0%Z leak) db1)
             db1_valid eq_refl).
  reflexivity.
Defined.

(** X12: on a collection of valid documents the answer of an update is 200,
    400 or 404, and each is given in exactly one situation: 404 when the id
    is well formed and names no stored complaint; 400 when the id is not well
    formed, or the complaint exists and a non-empty status outside the five
    values is sent; 200 when the complaint exists and the status is absent,
    empty or one of the five values.  The comment plays no part. *)
Theorem patch_code_iff (db : Collection) (now : Z) (id : string) (st cm : option string) :
  validStore db ->
  (statusCode (snd (patchStatus db now id st cm)) = 404%nat
   <-> castObjectId id <> None /\ lookup db id = None)
  /\ (statusCode (snd (patchStatus db now id st cm)) = 400%nat
      <-> castObjectId id = None
          \/ (lookup db id <> None /\ JS.truthy st = true
              /\ ~ In (JS.str st) statusEnum))
  /\ (statusCode (snd (patchStatus db now id st cm)) = 200%nat
      <-> lookup db id <> None
          /\ (JS.truthy st = false \/ In (JS.str st) statusEnum)).
Proof.
  intros Hdb.
  destruct (castObjectId id) as [oid|] eqn:Hcast.
  - destruct (lookup db id) as [c|] eqn:L.
    + destruct (lookup_inv _ _ _ L) as [_ [_ [_ [_ Hin]]]].
      pose proof (validStore_In _ _ Hdb Hin) as V.
      destruct (JS.truthy st) eqn:T.
      * destruct (inEnum (JS.str st)) eqn:E.
        -- destruct (patchStatus_ok db now id st cm c Hdb L) as [P _];
             [rewrite E; now destruct (assignsStatus c st) |].
           rewrite P. cbn [snd statusCode]. apply inEnum_In in E.
           intuition (try discriminate; try congruence).
        -- assert (Hnot : ~ In (JS.str st) statusEnum).
           { intros Q. apply inEnum_In in Q. congruence. }
           destruct (assigns_invalid c st V T Hnot) as [A _].
           destruct (patchStatus_refused db now id st cm c Hdb L) as [paths P];
             [now rewrite A, E |].
           rewrite P. cbn [snd statusCode].
           intuition (try discriminate; try congruence).
      * destruct (patchStatus_ok db now id st cm c Hdb L) as [P _].
        { unfold assignsStatus. now rewrite T. }
        rewrite P. cbn [snd statusCode].
        intuition (try discriminate; try congruence).
    + rewrite patchStatus_absent; [| now rewrite Hcast | exact L]. cbn [snd statusCode].
      intuition (try discriminate; try congruence).
  - assert (L : lookup db id = None).
    { unfold lookup, findById. now rewrite Hcast. }
    unfold patchStatus, findById. rewrite Hcast, L. cbn [snd statusCode throw].
    intuition (try discriminate; try congruence).
Qed.

Lemma patch_code_iff_witness :
  statusCode (snd (patchStatus db1 200%Z id1 (Some "") (Some "checked"))) = 200%nat.
Proof.
  apply (proj2 (proj2 (patch_code_iff db1 200%Z id1 (Some "") (Some "checked") db1_valid))).
  split; [discriminate | left; reflexivity].
Defined.

(** ** Login, further *)

(** X13: whatever the environment holds, a login that succeeds is answered
    200 with the configured admin email as its email field and a token for
    the role admin that expires in 24h and is signed with a secret that is
    not empty; the trimmed password is then the configured one.  Neither
    configured credential is ever empty, an empty environment value being
    replaced by the built-in one, so a password of white space only never
    logs in. *)
Theorem login_success_facts (env : Env) (email password : option string)
  (code : nat) (token : Token) (cleanEmail : string) :
  adminLogin env email password = LoginJson code token cleanEmail ->
  code = 200%nat
  /\ cleanEmail = configuredEmail env
  /\ JS.trim (JS.str password) = configuredPassword env
  /\ payload_role token = "admin" /\ expiresIn token = "24h"
  /\ secret token <> ""
  /\ cleanEmail <> "" /\ JS.trim (JS.str password) <> "".
Proof.
  unfold adminLogin.
  destruct (negb (JS.truthy email) || negb (JS.truthy password)); [discriminate |].
  fold (configuredEmail env) (configuredPassword env).
  destruct (String.eqb (JS.trim (JS.str email)) (configuredEmail env)) eqn:E1;
    [| discriminate].
  destruct (String.eqb (JS.trim (JS.str password)) (configuredPassword env)) eqn:E2;
    [| discriminate].
  simpl. intros H. inversion H. subst. simpl.
  apply String.eqb_eq in E1, E2.
  repeat split; auto.
  - now apply or_nonempty.
  - rewrite E1. now apply or_nonempty.
  - rewrite E2. now apply or_nonempty.
Qed.

Lemma login_success_facts_witness :
  JS.trim "prasad123 " = configuredPassword defaultEnv.
Proof.
  refine (proj1 (proj2 (proj2
    (login_success_facts defaultEnv (Some " prasad@gmail.com ") (Some "prasad123 ")
       200 _ "prasad@gmail.com" eq_refl)))).
Defined.

Lemma blank_cons (a : ascii) (s : string) :
  blank (String a s) -> JS.isWhiteSpace a = true /\ blank s.
Proof.
  unfold blank. simpl. destruct (JS.isWhiteSpace a); [auto | discriminate].
Qed.

Lemma trimStart_blank_app (l s : string) :
  blank l -> JS.trimStart (l ++ s)%string = JS.trimStart s.
Proof.
  induction l as [|a l IH]; intros Hl; [reflexivity |].
  apply blank_cons in Hl. destruct Hl as [Ha Hl]. simpl. rewrite Ha. now apply IH.
Qed.

Lemma trimEnd_blank (r : string) : blank r -> JS.trimEnd r = "".
Proof.
  induction r as [|a r IH]; intros Hr; [reflexivity |].
  apply blank_cons in Hr. destruct Hr as [Ha Hr]. simpl.
  now rewrite (IH Hr), Ha.
Qed.

Lemma trimEnd_app_blank (s r : string) :
  blank r -> JS.trimEnd (s ++ r)%string = JS.trimEnd s.
Proof.
  intros Hr. induction s as [|a s IH]; simpl; [now apply trimEnd_blank |].
  now rewrite IH.
Qed.

Lemma trimStart_app (s r : string) :
  JS.trimStart s <> "" -> JS.trimStart (s ++ r)%string = (JS.trimStart s ++ r)%string.
Proof.
  induction s as [|a s IH]; simpl; [congruence |].
  destruct (JS.isWhiteSpace a); [exact IH | reflexivity].
Qed.

Lemma trim_padded (l s r : string) :
  blank l -> blank r -> JS.trim (l ++ s ++ r)%string = JS.trim s.
Proof.
  intros Hl Hr. unfold JS.trim. rewrite (trimStart_blank_app _ _ Hl).
  destruct (string_dec (JS.trimStart s) "") as [E|E].
  - rewrite trimStart_blank_app; [| exact E]. rewrite E.
    unfold blank in Hr. now rewrite Hr.
  - rewrite (trimStart_app _ _ E). now apply trimEnd_app_blank.
Qed.

Lemma append_nonempty (l s r : string) : s <> "" -> (l ++ s ++ r)%string <> "".
Proof.
  intros Hs. destruct l; simpl; [| discriminate].
  destruct s; [congruence | discriminate].
Qed.

(** X14: white space put around a non-empty email or password does not
    change the verdict of a login: the padded credentials get the status
    code the bare ones get. *)
Theorem login_ignores_padding (env : Env) (e p l1 r1 l2 r2 : string) :
  e <> "" -> p <> "" -> blank l1 -> blank r1 -> blank l2 -> blank r2 ->
  statusCode (adminLogin env (Some (l1 ++ e ++ r1)%string) (Some (l2 ++ p ++ r2)%string))
  = statusCode (adminLogin env (Some e) (Some p)).
Proof.
  intros He Hp H1 H2 H3 H4.
  rewrite (adminLogin_present env _ _ (append_nonempty l1 e r1 He)
             (append_nonempty l2 p r2 Hp)).
  rewrite (adminLogin_present env e p He Hp).
  rewrite !trim_padded by assumption.
  now destruct (_ && _).
Qed.

Lemma login_ignores_padding_witness :
  statusCode (adminLogin defaultEnv (Some "  prasad@gmail.com ") (Some " prasad123  "))
  = 200%nat.
Proof.
  assert (B1 : blank "  ") by reflexivity.
  assert (B2 : blank " ") by reflexivity.
  refine (eq_trans
            (login_ignores_padding defaultEnv "prasad@gmail.com" "prasad123"
               "  " " " " " "  " _ _ B1 B2 B2 B1) eq_refl); discriminate.
Defined.
